(** * DigitoolDB: the storage and indexing engine

    A shallow embedding of [src/common/models.py] (Document, Collection)
    and [src/common/indexing.py] (Index, IndexManager), and the properties
    of the engine checked against it.

    Conventions of the embedding.
    - A JSON value as Python's [json] module loads it is a [value].
      Numbers are integers ([Z]); IEEE floats are outside the embedding.
      A string is a sequence of code points below 256.
    - A Python [dict] keeps insertion order, so it is an association list
      [obj]; the operations below are those of a Python dict (lookup of a
      key, assignment to a key in place or at the end).
    - The two sources of non-determinism, [uuid.uuid4()] and
      [datetime.now()], are explicit arguments of the operations.
    - A raised exception is a [Raise] result; an operation that mutates
      files before raising returns the state it leaves behind. *)

From Stdlib Require Import ZArith String Ascii List Bool Lia.
From Stdlib Require OrdersEx.
From stdpp Require Import base option list gmap strings pretty.

Set Warnings "-register-all".
Local Open Scope string_scope.
Local Open Scope Z_scope.
Local Open Scope list_scope.

(** ** JSON values and Python's view of them *)

Inductive value : Type :=
| VNull
| VBool (b : bool)
| VNum (n : Z)
| VStr (s : string)
| VList (l : list value)
| VDict (d : list (string * value)).

(** A Python dict with string keys, in insertion order. *)
Definition obj : Type := list (string * value).

Module Dict.

(** [d[k]] / [d.get(k)]: the value bound to [k], if any. *)
Fixpoint get {A : Type} (k : string) (d : list (string * A)) : option A :=
  match d with
  | [] => None
  | (k', v) :: r => if String.eqb k k' then Some v else get k r
  end.

(** [k in d]. *)
Definition has {A : Type} (k : string) (d : list (string * A)) : bool :=
  match get k d with Some _ => true | None => false end.

(** [d[k] = v]: an existing key keeps its position, a new key goes last. *)
Fixpoint set {A : Type} (k : string) (v : A) (d : list (string * A))
  : list (string * A) :=
  match d with
  | [] => [(k, v)]
  | (k', v') :: r =>
      if String.eqb k k' then (k, v) :: r else (k', v') :: set k v r
  end.

(** [d.update(u)]: assign every item of [u], in [u]'s order. *)
Definition update {A : Type} (d u : list (string * A)) : list (string * A) :=
  fold_left (fun acc kv => set (fst kv) (snd kv) acc) u d.

Definition keys {A : Type} (d : list (string * A)) : list string :=
  map fst d.

End Dict.

(** Python's [==] on JSON values: [bool] is a subclass of [int]
    ([True == 1]), lists compare element by element, dicts compare as
    finite maps (same number of keys, and every key of the left one bound
    to an equal value in the right one). *)
Fixpoint py_eqb (a b : value) {struct a} : bool :=
  match a, b with
  | VNull, VNull => true
  | VBool x, VBool y => Bool.eqb x y
  | VBool x, VNum n => Z.eqb (Z.b2z x) n
  | VNum n, VBool y => Z.eqb n (Z.b2z y)
  | VNum x, VNum y => Z.eqb x y
  | VStr x, VStr y => String.eqb x y
  | VList l1, VList l2 =>
      (fix go (l1 l2 : list value) : bool :=
         match l1, l2 with
         | [], [] => true
         | x :: xs, y :: ys => py_eqb x y && go xs ys
         | _, _ => false
         end) l1 l2
  | VDict d1, VDict d2 =>
      Nat.eqb (length d1) (length d2)
      && (fix go (d : list (string * value)) : bool :=
            match d with
            | [] => true
            | (k, v) :: r =>
                match Dict.get k d2 with
                | Some w => py_eqb v w
                | None => false
                end && go r
            end) d1
  | _, _ => false
  end.

(** [hash(v)] succeeds: lists and dicts are unhashable. *)
Definition hashable (v : value) : bool :=
  match v with
  | VList _ | VDict _ => false
  | _ => true
  end.

(** [x in l] for a Python list [l]. *)
Definition py_in (x : value) (l : list value) : bool :=
  existsb (py_eqb x) l.

(** [l.remove(x)] for a list known to contain [x]: drops the first element
    equal to [x]. *)
Fixpoint py_remove (x : value) (l : list value) : list value :=
  match l with
  | [] => []
  | y :: r => if py_eqb y x then r else y :: py_remove x r
  end.

(** ** Rendering: [str] and [json.dumps(_, sort_keys=True)] *)

Module Json.

Definition hex_digit (n : N) : ascii :=
  match n with
  | 0 => "0" | 1 => "1" | 2 => "2" | 3 => "3" | 4 => "4" | 5 => "5"
  | 6 => "6" | 7 => "7" | 8 => "8" | 9 => "9" | 10 => "a" | 11 => "b"
  | 12 => "c" | 13 => "d" | 14 => "e" | _ => "f"
  end%N%char.

(** One character inside a JSON string with [ensure_ascii=True]: the
    named escapes, and [\u00xx] for everything outside [' '..'~']. *)
Definition escape_char (c : ascii) : string :=
  let n := N_of_ascii c in
  if N.eqb n 34 then "\" +:+ String c EmptyString
  else if N.eqb n 92 then "\\"
  else if N.eqb n 10 then "\n"
  else if N.eqb n 13 then "\r"
  else if N.eqb n 9 then "\t"
  else if N.eqb n 8 then "\b"
  else if N.eqb n 12 then "\f"
  else if (N.leb 32 n && N.leb n 126)%bool then String c EmptyString
  else "\u00" +:+ String (hex_digit (N.div n 16))
                   (String (hex_digit (N.modulo n 16)) EmptyString).

Fixpoint escape (s : string) : string :=
  match s with
  | EmptyString => EmptyString
  | String c r => escape_char c +:+ escape r
  end.

Definition quote : string := String (ascii_of_N 34) EmptyString.

Definition dump_string (s : string) : string :=
  quote +:+ escape s +:+ quote.

Fixpoint join (sep : string) (l : list string) : string :=
  match l with
  | [] => EmptyString
  | [x] => x
  | x :: r => x +:+ sep +:+ join sep r
  end.

(** [sorted] on the items of a dict: insertion into a list ordered by
    key (code point order). *)
Fixpoint insert_sorted {A : Type} (kv : string * A) (l : list (string * A))
  : list (string * A) :=
  match l with
  | [] => [kv]
  | kv' :: r =>
      if String.leb (fst kv) (fst kv') then kv :: l
      else kv' :: insert_sorted kv r
  end.

Definition sort_items {A : Type} (l : list (string * A)) : list (string * A) :=
  fold_right insert_sorted [] l.

(** [json.dumps(v, sort_keys=True)] with the default separators. *)
Fixpoint dumps (v : value) : string :=
  match v with
  | VNull => "null"
  | VBool true => "true"
  | VBool false => "false"
  | VNum n => pretty n
  | VStr s => dump_string s
  | VList l => "[" +:+ join ", " (map dumps l) +:+ "]"
  | VDict d =>
      "{" +:+
      join ", "
        (map (fun ks => dump_string (fst ks) +:+ ": " +:+ snd ks)
           (sort_items (map (fun kv => (fst kv, dumps (snd kv))) d)))
      +:+ "}"
  end.

End Json.

(** Truth value of a string: [if s:]. *)
Definition str_truthy (s : string) : bool :=
  match s with EmptyString => false | _ => true end.

(** ** Exceptions *)

Inductive exn : Type := KeyError | TypeError | AttributeError.

Inductive result (A : Type) : Type :=
| Ok (a : A)
| Raise (e : exn).
Arguments Ok {A} a.
Arguments Raise {A} e.

(** ** Index ([indexing.py]) *)

(** [Index.index]: normalized field value -> list of document ids. The ids
    are whatever the documents carry under ["_id"], or what the caller of
    [add] passes. *)
Abbreviation index_map := (gmap string (list value)).

Module Index.

(** [Index._get_indexable_value]. *)
Definition _get_indexable_value (v : value) : string :=
  match v with
  | VDict _ | VList _ => Json.dumps v
  | VNull => "None"          (* str(None) *)
  | VBool true => "True"     (* str(True) *)
  | VBool false => "False"
  | VNum n => pretty n
  | VStr s => s
  end.

(** [document.get(k)]: [None] (here [VNull]) for a missing key. *)
Definition get_or_none (k : string) (d : obj) : value :=
  default VNull (Dict.get k d).

(** [if key not in self.index: self.index[key] = []]. *)
Definition ensure_bucket (key : string) (index : index_map) : index_map :=
  match index !! key with
  | Some _ => index
  | None => <[key := []]> index
  end.

(** [self.index[key].append(doc_id)] for a key that is in the index. *)
Definition append_id (key : string) (doc_id : value) (index : index_map)
  : index_map :=
  <[key := default [] (index !! key) ++ [doc_id]]> index.

(** The loop of [Index._build_index] over the documents read from the
    collection file. *)
Fixpoint build_loop (field : string) (documents : list obj) (index : index_map)
  : index_map :=
  match documents with
  | [] => index
  | document :: rest =>
      match Dict.get field document with
      | Some v =>
          let field_value := _get_indexable_value v in
          let doc_id := get_or_none "_id" document in
          build_loop field rest
            (append_id field_value doc_id (ensure_bucket field_value index))
      | None => build_loop field rest index
      end
  end.

(** Whether [open(self.index_path, 'w')] in [_save_index] creates the
    file [<collection_path>.<field>.idx] when it does not exist yet. The
    file is created in the directory of the collection file, which
    exists. A field with a ["/"] names a file of a directory below that
    one; the engine creates no such directory, and [open] raises
    [FileNotFoundError]. A field with a NUL character is no path at all:
    [open] raises [ValueError]. The limits of the file system (the
    maximal length of a file name, free space, permissions) are left
    aside. *)
Fixpoint savable (field : string) : bool :=
  match field with
  | EmptyString => true
  | String ch r =>
      negb (Ascii.eqb ch "/"%char) && negb (Ascii.eqb ch "000"%char)
      && savable r
  end.

(** [Index._build_index]: the index is rebuilt from nothing and saved.
    [_save_index] is the last statement of the [try]: when the file
    cannot be created, the handler of [FileNotFoundError] resets
    [self.index] to [{}] and no file is written. (The [ValueError] of a
    NUL character is not handled and leaves the constructor; the
    operations of the embedding that create an index return, and follow
    the code on the fields without a NUL.) *)
Definition _build_index (field : string) (documents : list obj) : index_map :=
  if savable field then build_loop field documents ∅ else ∅.

(** [Index._load_or_build_index]: [saved] is the content of the index
    file when the file exists. The result is [self.index] and whether
    [_save_index] wrote the file. *)
Definition _load_or_build_index (field : string) (saved : option index_map)
    (documents : list obj) : index_map * bool :=
  match saved with
  | Some index => (index, false)
  | None => (_build_index field documents, savable field)
  end.

(** [Index.find_doc_ids]. *)
Definition find_doc_ids (index : index_map) (v : value) : list value :=
  default [] (index !! _get_indexable_value v).

(** The key computed at the head of [update] and [remove]:
    [_get_indexable_value(v) if v is not None else None]. *)
Definition key_of (v : value) : option string :=
  match v with
  | VNull => None
  | _ => Some (_get_indexable_value v)
  end.

(** The removal block shared by [Index.update] and [Index.remove], for a
    key that is in the index with bucket [bucket]. *)
Definition drop_id (doc_id : value) (key : string) (bucket : list value)
    (index : index_map) : index_map :=
  let bucket' := if py_in doc_id bucket then py_remove doc_id bucket
                 else bucket in
  match bucket' with
  | [] => delete key index
  | _ => <[key := bucket']> index
  end.

(** The insertion block shared by [Index.update] and [Index.add]: the
    new mapping and whether the id was appended. *)
Definition put_id (doc_id : value) (key : string) (index : index_map)
  : index_map * bool :=
  let index1 := ensure_bucket key index in
  if py_in doc_id (default [] (index1 !! key)) then (index1, false)
  else (append_id key doc_id index1, true).

(** [Index.update]; it always saves. *)
Definition update (doc_id old_value new_value : value) (index : index_map)
  : index_map :=
  let old_key := key_of old_value in
  let new_key := key_of new_value in
  let index1 :=
    match old_key with
    | Some k =>
        if str_truthy k then
          match index !! k with
          | Some bucket => drop_id doc_id k bucket index
          | None => index
          end
        else index
    | None => index
    end in
  match new_key with
  | Some k => if str_truthy k then fst (put_id doc_id k index1) else index1
  | None => index1
  end.

(** [Index.remove]: the new mapping and whether [_save_index] ran. *)
Definition remove (doc_id v : value) (index : index_map) : index_map * bool :=
  match key_of v with
  | Some k =>
      if str_truthy k then
        match index !! k with
        | Some bucket => (drop_id doc_id k bucket index, true)
        | None => (index, false)
        end
      else (index, false)
  | None => (index, false)
  end.

(** [Index.add]: the new mapping and whether [_save_index] ran. *)
Definition add (doc_id v : value) (index : index_map) : index_map * bool :=
  match v with
  | VNull => (index, false)
  | _ => put_id doc_id (_get_indexable_value v) index
  end.

End Index.

(** ** Documents ([models.py]) *)

Record Document : Type := mkDocument { data : obj; id : string }.

(** [Document.__init__(data, doc_id)]; [uuid] is the result of
    [str(uuid.uuid4())], [now1] and [now2] those of the two calls of
    [datetime.now().isoformat()]. *)
Definition Document_init (d : obj) (doc_id : option string)
    (uuid now1 now2 : string) : Document :=
  let id :=
    match doc_id with
    | Some s => if str_truthy s then s else uuid
    | None => uuid
    end in
  let d1 := if Dict.has "_id" d then d else Dict.set "_id" (VStr id) d in
  let d2 := if Dict.has "_created_at" d1 then d1
            else Dict.set "_created_at" (VStr now1) d1 in
  mkDocument (Dict.set "_updated_at" (VStr now2) d2) id.

(** ** The state of one collection

    [documents] is the parsed content of [<name>.digitool], [artifacts] the
    parsed contents of the files [<name>.digitool.<field>.idx] (keyed by
    [<field>]), [indices] the dict [IndexManager.indices] of the open
    handle. Both files are taken to hold well-formed JSON, and an index
    file that exists can be rewritten. *)
Record collection : Type := mkCollection {
  documents : list obj;
  artifacts : gmap string index_map;
  indices : gmap string index_map;
}.

(** [Collection._read_collection]. *)
Definition _read_collection (c : collection) : list obj := documents c.

(** [Collection._write_collection]. *)
Definition _write_collection (docs : list obj) (c : collection) : collection :=
  mkCollection docs (artifacts c) (indices c).

(** ** IndexManager ([indexing.py]) *)

Module IndexManager.

(** [Index(collection_path, field)], for the collection of this manager:
    the [Index.index] of the new object and the index files afterwards.
    An index whose file could not be created is empty and has no file. *)
Definition new_Index (field : string) (c : collection)
  : index_map * gmap string index_map :=
  let '(index, saved) :=
    Index._load_or_build_index field (artifacts c !! field) (documents c) in
  (index, if saved then <[field := index]> (artifacts c) else artifacts c).

(** [filename.split('.')[-2]] for the file name
    [<name>.digitool.<field>.idx]: what follows the last dot of [<field>],
    or [<field>] itself when it has no dot. *)
Fixpoint last_component (acc s : string) : string :=
  match s with
  | EmptyString => acc
  | String c r =>
      if Ascii.eqb c "."%char then last_component EmptyString r
      else last_component (acc +:+ String c EmptyString) r
  end.

Definition field_of_artifact (f : string) : string :=
  last_component EmptyString f.

(** One iteration of the loop of [_load_indices]. *)
Definition load_one (c : collection) (f : string) : collection :=
  let field := field_of_artifact f in
  let '(idx, arts) := new_Index field c in
  mkCollection (documents c) arts (<[field := idx]> (indices c)).

(** [IndexManager.__init__]: [self.indices = {}], then one [Index] per
    index file found next to the collection file. *)
Definition _load_indices (c : collection) : collection :=
  foldl load_one (mkCollection (documents c) (artifacts c) ∅)
    (map fst (map_to_list (artifacts c))).

(** [ensure_index]. *)
Definition ensure_index (field : string) (c : collection) : collection :=
  match indices c !! field with
  | Some _ => c
  | None =>
      let '(idx, arts) := new_Index field c in
      mkCollection (documents c) arts (<[field := idx]> (indices c))
  end.

(** [drop_index]. *)
Definition drop_index (field : string) (c : collection) : bool * collection :=
  match indices c !! field with
  | Some _ =>
      (true, mkCollection (documents c) (delete field (artifacts c))
               (delete field (indices c)))
  | None => (false, c)
  end.

(** [list_indices], as the set of its elements. *)
Definition list_indices (c : collection) : gset string := dom (indices c).

(** [find_by_index]. *)
Definition find_by_index (field : string) (v : value) (c : collection)
  : list value :=
  match indices c !! field with
  | Some idx => Index.find_doc_ids idx v
  | None => []
  end.

(** [for field in self.indices: ...]: every index is stepped once; an
    index whose step saved has its artifact overwritten. (An index that a
    failed build left without a file, on a field that is not
    [Index.savable], cannot be saved either: [_save_index] raises
    [FileNotFoundError] out of the loop. The embedding does not follow
    the loop on such an index.) *)
Definition for_each_index (step : string → index_map → index_map * bool)
    (c : collection) : collection :=
  let stepped := map_imap (λ field idx, Some (step field idx)) (indices c) in
  let saved := fst <$> filter (λ kv, snd (snd kv) = true) stepped in
  mkCollection (documents c) (saved ∪ artifacts c) (fst <$> stepped).

(** [update_indices]. *)
Definition update_indices (doc_id : value) (old_doc new_doc : obj)
    (c : collection) : collection :=
  for_each_index
    (λ field idx,
       let old_value := Index.get_or_none field old_doc in
       let new_value := Index.get_or_none field new_doc in
       if negb (py_eqb old_value new_value)
       then (Index.update doc_id old_value new_value idx, true)
       else (idx, false)) c.

(** [remove_from_indices]. *)
Definition remove_from_indices (doc_id : value) (document : obj)
    (c : collection) : collection :=
  for_each_index
    (λ field idx,
       match Dict.get field document with
       | Some v => Index.remove doc_id v idx
       | None => (idx, false)
       end) c.

(** [add_to_indices]. *)
Definition add_to_indices (doc_id : value) (document : obj)
    (c : collection) : collection :=
  for_each_index
    (λ field idx,
       match Dict.get field document with
       | Some v => Index.add doc_id v idx
       | None => (idx, false)
       end) c.

End IndexManager.

(** ** Collection ([models.py]) *)

Module Collection.

(** The matching loop shared by [find], [update] and [delete]:
    [key not in doc or doc[key] != value] fails the match. *)
Definition matches (query doc : obj) : bool :=
  forallb
    (λ kv, match Dict.get (fst kv) doc with
           | Some x => py_eqb x (snd kv)
           | None => false
           end) query.

(** A query argument is a dict or [None]; [if not query] holds for
    [None] and for the empty dict. *)
Definition query_truthy (query : option obj) : bool :=
  match query with
  | Some (_ :: _) => true
  | _ => false
  end.

(** [Collection.__init__] on an existing collection file: a fresh
    [IndexManager] loads the indices from the index files. *)
Definition reopen (c : collection) : collection :=
  IndexManager._load_indices c.

(** A collection that has just been created: [[]] in the file, no index. *)
Definition empty : collection := mkCollection [] ∅ ∅.

Definition create_index (field : string) (c : collection)
  : bool * collection :=
  (true, IndexManager.ensure_index field c).

Definition drop_index (field : string) (c : collection) : bool * collection :=
  IndexManager.drop_index field c.

Definition list_indices (c : collection) : gset string :=
  IndexManager.list_indices c.

(** [Collection.insert] for a [Document] argument. *)
Definition insert_document (document : Document) (c : collection)
  : string * collection :=
  let documents := _read_collection c in
  let c1 := _write_collection (documents ++ [data document]) c in
  (id document,
   IndexManager.add_to_indices (VStr (id document)) (data document) c1).

(** [Collection.insert] for a dict argument. *)
Definition insert (d : obj) (uuid now1 now2 : string) (c : collection)
  : string * collection :=
  insert_document (Document_init d None uuid now1 now2) c.

(** The result loop of [find]; [ids] is [indexed_doc_ids]. *)
Fixpoint scan (query : obj) (ids : option (list value)) (docs : list obj)
  : result (list obj) :=
  match docs with
  | [] => Ok []
  | doc :: rest =>
      let continue (keep : bool) :=
        match scan query ids rest with
        | Ok results => Ok (if keep then doc :: results else results)
        | Raise e => Raise e
        end in
      match ids with
      | Some s =>
          match Dict.get "_id" doc with
          | None => Raise KeyError
          | Some i =>
              if negb (hashable i) then Raise TypeError
              else if negb (py_in i s) then continue false
              else continue (matches query doc)
          end
      | None => continue (matches query doc)
      end
  end.

(** [Collection.find]. *)
Definition find (query : option obj) (c : collection) : result (list obj) :=
  let documents := _read_collection c in
  if negb (query_truthy query) then Ok documents
  else
    let q := default [] query in
    let indexed_field :=
      List.find (λ field, bool_decide (field ∈ list_indices c))
        (Dict.keys q) in
    match indexed_field with
    | Some field =>
        if str_truthy field then
          let ids :=
            IndexManager.find_by_index field (Index.get_or_none field q) c in
          if forallb hashable ids then
            match ids with
            | [] => Ok []
            | _ => scan q (Some ids) documents
            end
          else Raise TypeError
        else scan q None documents
    | None => scan q None documents
    end.

(** [isinstance(v, (int, float))] on the values of the embedding, with
    the integer the value stands for; [bool] is a subclass of [int]. A
    [value] is never a float, so what [$inc] does to a float operand
    (IEEE addition, with its rounding) is not covered: the properties of
    [$inc] below are about integer operands, on which Python's [+] is
    exact. *)
Definition as_int (v : value) : option Z :=
  match v with
  | VNum n => Some n
  | VBool b => Some (Z.b2z b)
  | _ => None
  end.

(** The [$inc] loop. *)
Fixpoint apply_inc (kv : obj) (doc : obj) : result obj :=
  match kv with
  | [] => Ok doc
  | (k, v) :: rest =>
      match Dict.get k doc with
      | Some x =>
          match as_int x with
          | Some n =>
              match as_int v with
              | Some m => apply_inc rest (Dict.set k (VNum (n + m)) doc)
              | None => Raise TypeError
              end
          | None => apply_inc rest (Dict.set k v doc)
          end
      | None => apply_inc rest (Dict.set k v doc)
      end
  end.

(** [update[op].items()]: only a dict has items. *)
Definition items_of (v : value) : result obj :=
  match v with
  | VDict kv => Ok kv
  | _ => Raise AttributeError
  end.

(** The three branches of [update] on one matched document. *)
Definition apply_update (upd : obj) (doc : obj) : result obj :=
  match Dict.get "$set" upd with
  | Some s =>
      match items_of s with
      | Ok kv => Ok (Dict.update doc kv)
      | Raise e => Raise e
      end
  | None =>
      match Dict.get "$inc" upd with
      | Some s =>
          match items_of s with
          | Ok kv => apply_inc kv doc
          | Raise e => Raise e
          end
      | None =>
          match Dict.get "_id" doc with
          | Some doc_id => Ok (Dict.set "_id" doc_id (Dict.update doc upd))
          | None => Raise KeyError
          end
      end
  end.

(** The body of the loop of [update] for one document: the document to
    store at this position, whether it counts as updated, and the state
    after the index update. *)
Definition update_one (query : option obj) (upd : obj) (now : string)
    (doc : obj) (c : collection) : result (obj * bool) * collection :=
  match query with
  | None => (Raise AttributeError, c)
  | Some q =>
      if matches q doc then
        match apply_update upd doc with
        | Ok doc1 =>
            let doc2 := Dict.set "_updated_at" (VStr now) doc1 in
            match Dict.get "_id" doc2 with
            | Some doc_id =>
                (Ok (doc2, true),
                 IndexManager.update_indices doc_id doc doc2 c)
            | None => (Raise KeyError, c)
            end
        | Raise e => (Raise e, c)
        end
      else (Ok (doc, false), c)
  end.

(** The loop of [update]; [now i] is the time read for the document at
    position [i]. *)
Fixpoint update_loop (query : option obj) (upd : obj) (now : nat → string)
    (i : nat) (docs : list obj) (c : collection)
  : result (list obj * nat) * collection :=
  match docs with
  | [] => (Ok ([], 0%nat), c)
  | doc :: rest =>
      match update_one query upd (now i) doc c with
      | (Ok (doc', updated), c1) =>
          match update_loop query upd now (S i) rest c1 with
          | (Ok (rest', n), c2) =>
              (Ok (doc' :: rest', if updated then S n else n), c2)
          | (Raise e, c2) => (Raise e, c2)
          end
      | (Raise e, c1) => (Raise e, c1)
      end
  end.

(** [Collection.update]. *)
Definition update (query : option obj) (upd : obj) (now : nat → string)
    (c : collection) : result nat * collection :=
  let documents := _read_collection c in
  match update_loop query upd now 0%nat documents c with
  | (Ok (docs', updated_count), c1) =>
      if (0 <? updated_count)%nat
      then (Ok updated_count, _write_collection docs' c1)
      else (Ok updated_count, c1)
  | (Raise e, c1) => (Raise e, c1)
  end.

(** The index loop at the end of [delete]. *)
Fixpoint remove_deleted (deleted_docs : list obj) (c : collection)
  : result unit * collection :=
  match deleted_docs with
  | [] => (Ok tt, c)
  | doc :: rest =>
      match Dict.get "_id" doc with
      | Some doc_id =>
          remove_deleted rest (IndexManager.remove_from_indices doc_id doc c)
      | None => (Raise KeyError, c)
      end
  end.

(** [Collection.delete]. *)
Definition delete (query : option obj) (c : collection)
  : result nat * collection :=
  let documents := _read_collection c in
  let original_count := length documents in
  if negb (query_truthy query) then (Ok 0%nat, c)
  else
    let q := default [] query in
    let deleted_docs := List.filter (matches q) documents in
    let new_documents :=
      List.filter (λ doc, negb (matches q doc)) documents in
    let deleted_count := (original_count - length new_documents)%nat in
    if (0 <? deleted_count)%nat then
      match remove_deleted deleted_docs (_write_collection new_documents c) with
      | (Ok _, c1) => (Ok deleted_count, c1)
      | (Raise e, c1) => (Raise e, c1)
      end
    else (Ok deleted_count, c).

End Collection.

(** * Notions used by the properties *)

(** ** Comparison clauses *)

Module Comparison.

(** The comparison a clause [{field: {op: bound}}] would denote, for the
    four operators, on two numbers or on two strings (code point order).
    This definition follows the specification, not the code: the code
    has no counterpart of it. *)
Definition spec_compare (op : string) (x bound : value) : bool :=
  match x, bound with
  | VNum a, VNum b =>
      if String.eqb op "$lt" then a <? b
      else if String.eqb op "$lte" then a <=? b
      else if String.eqb op "$gt" then b <? a
      else if String.eqb op "$gte" then b <=? a
      else false
  | VStr a, VStr b =>
      if String.eqb op "$lt" then String.ltb a b
      else if String.eqb op "$lte" then String.leb a b
      else if String.eqb op "$gt" then String.ltb b a
      else if String.eqb op "$gte" then String.leb b a
      else false
  | _, _ => false
  end.

(** The documents a comparison query would select. *)
Definition spec_find (field op : string) (bound : value) (docs : list obj)
  : list obj :=
  List.filter
    (λ d, match Dict.get field d with
          | Some x => spec_compare op x bound
          | None => false
          end) docs.

(** What the code tests instead: the field is bound to a value equal to
    the literal [lit]. *)
Definition equals_literal (field : string) (lit : value) (d : obj) : bool :=
  match Dict.get field d with
  | Some x => py_eqb x lit
  | None => false
  end.

(** One stored document, [{"age": 25}]. *)
Definition ages : collection :=
  snd (Collection.insert [("age", VNum 25)] "u1" "t1" "t2" Collection.empty).

End Comparison.

(** ** Document identities *)

(** The [_id] values of the stored documents, in storage order. *)
Definition doc_ids (docs : list obj) : list value :=
  omap (Dict.get "_id") docs.

(** No two elements are equal for Python's [==]. *)
Fixpoint distinct (l : list value) : bool :=
  match l with
  | [] => true
  | x :: r => forallb (λ y, negb (py_eqb x y)) r && distinct r
  end.

Definition unique_ids (docs : list obj) : bool := distinct (doc_ids docs).

(** The [_id] under which [insert] stores the mapping [d]: the caller's
    when [d] has one, the generated one otherwise. *)
Definition stored_id (d : obj) (uuid : string) : value :=
  default (VStr uuid) (Dict.get "_id" d).

(** The [$set] or [$inc] payload that [update] applies lists [_id]. *)
Definition assigns_id (upd : obj) : bool :=
  match Dict.get "$set" upd with
  | Some (VDict kv) => Dict.has "_id" kv
  | Some _ => false
  | None =>
      match Dict.get "$inc" upd with
      | Some (VDict kv) => Dict.has "_id" kv
      | _ => false
      end
  end.

(** ** Threads sharing a collection

    [Collection.insert] takes no lock: it reads the collection file,
    appends to the list it read, writes the list back and then updates the
    indices. Threads that share a collection are modelled at the
    granularity of these statements: a thread switch can occur between any
    two of them (it can also occur inside one, which the model leaves
    out). *)

Module Concurrent.

(** One call of [insert] with what it draws from the environment. *)
Record request : Type := mkRequest {
  req_doc : obj;
  req_uuid : string;
  req_now1 : string;
  req_now2 : string;
}.

(** Where a thread is in the body of [Collection.insert]. *)
Inductive thread : Type :=
| Pending (r : request)
    (* before [documents = self._read_collection()] *)
| Loaded (document : Document) (docs : list obj)
    (* [documents] is bound: before the append and the write *)
| Stored (document : Document)
    (* the file is written: before [add_to_indices] *)
| Returned (doc_id : string).

(** The next statement of a thread, on the shared collection. *)
Definition step_thread (t : thread) (c : collection) : thread * collection :=
  match t with
  | Pending r =>
      (Loaded (Document_init (req_doc r) None (req_uuid r) (req_now1 r)
                 (req_now2 r))
         (_read_collection c), c)
  | Loaded document docs =>
      (Stored document, _write_collection (docs ++ [data document]) c)
  | Stored document =>
      (Returned (id document),
       IndexManager.add_to_indices (VStr (id document)) (data document) c)
  | Returned doc_id => (Returned doc_id, c)
  end.







End Concurrent.


(** ** The index file of a field, deleted behind the collection's back *)

(** The out-of-band deletion of the index file of [field]. *)
Definition unlink_artifact (field : string) (c : collection) : collection :=
  mkCollection (documents c) (delete field (artifacts c)) (indices c).

(** ** Sample states *)

(** An index on ["a"] is created on the empty collection, then
    [{"a": 1}] and [{"a": null}] are inserted. *)
Definition one_and_null : collection :=
  snd (Collection.insert [("a", VNull)] "u2" "t3" "t4"
         (snd (Collection.insert [("a", VNum 1)] "u1" "t1" "t2"
                 (snd (Collection.create_index "a" Collection.empty))))).

(** An index on ["a"] is created on the empty collection, then
    [{"a": null}] is inserted. *)
Definition indexed_null : collection :=
  snd (Collection.insert [("a", VNull)] "u1" "t1" "t2"
         (snd (Collection.create_index "a" Collection.empty))).

(** An index on ["a"], one document whose ["a"] is the empty string, then
    an update that sets ["a"] to ["x"]. *)
Definition renamed : collection :=
  snd (Collection.update (Some [("_id", VStr "u1")])
         [("$set", VDict [("a", VStr "x")])] (λ _, "t3")
         (snd (Collection.insert [("a", VStr EmptyString)] "u1" "t1" "t2"
                 (snd (Collection.create_index "a" Collection.empty))))).

(** A collection holding the one document [{"_id": "a"}]. *)
Definition one_a : collection :=
  snd (Collection.insert [("_id", VStr "a")] "u1" "t1" "t2" Collection.empty).

(** ** Notions for the further properties *)

(** [doc['_id'] in indexed_doc_ids], for a document that has an [_id]. *)
Definition candidate (ids : list value) (doc : obj) : bool :=
  match Dict.get "_id" doc with
  | Some i => py_in i ids
  | None => false
  end.

(** The document has an [_id], and a hashable one. *)
Definition has_hashable_id (doc : obj) : bool :=
  match Dict.get "_id" doc with
  | Some i => hashable i
  | None => false
  end.

(** The document has [field], and its value has the index key of [v]. *)
Definition keyed_as (field : string) (v : value) (doc : obj) : bool :=
  match Dict.get field doc with
  | Some x =>
      String.eqb (Index._get_indexable_value x) (Index._get_indexable_value v)
  | None => false
  end.

(** Alice and Bob, inserted before an index on ["age"] is created. *)
Definition people : collection :=
  snd (Collection.create_index "age"
         (snd (Collection.insert [("name", VStr "Bob"); ("age", VNum 25)]
                 "u2" "t3" "t4"
                 (snd (Collection.insert
                         [("name", VStr "Alice"); ("age", VNum 30)]
                         "u1" "t1" "t2" Collection.empty))))).

(** Every index file is open and every open index equals its file. *)
Definition in_sync (c : collection) : Prop := artifacts c = indices c.

(** The string has no ["."]. *)
Fixpoint no_dot (s : string) : bool :=
  match s with
  | EmptyString => true
  | String ch r => negb (Ascii.eqb ch "."%char) && no_dot r
  end.

(** The document has the three reserved fields. *)
Definition has_reserved (doc : obj) : bool :=
  Dict.has "_id" doc && Dict.has "_created_at" doc && Dict.has "_updated_at" doc.

(** * Name validation ([utils.py]) *)

Module Utils.

(** A character of the class [[a-zA-Z0-9_]]. *)
Definition is_word_char (ch : ascii) : bool :=
  let n := N_of_ascii ch in
  ((48 <=? n) && (n <=? 57) || (65 <=? n) && (n <=? 90)
   || (97 <=? n) && (n <=? 122) || (n =? 95))%N.

(** The rest of a match of [[a-zA-Z0-9_]+$] once one character is
    consumed: more characters of the class, then the end of the string,
    where [$] also matches just before a newline that ends the string. *)
Fixpoint word_tail (s : string) : bool :=
  match s with
  | EmptyString => true
  | String ch r =>
      if is_word_char ch then word_tail r
      else (N_of_ascii ch =? 10)%N
           && match r with EmptyString => true | _ => false end
  end.

(** [bool(re.match(r'^[a-zA-Z0-9_]+$', name))]. *)
Definition validate_db_name (name : string) : bool :=
  match name with
  | EmptyString => false
  | String ch r => is_word_char ch && word_tail r
  end.

(** [validate_collection_name] has the same body. *)
Definition validate_collection_name (name : string) : bool :=
  match name with
  | EmptyString => false
  | String ch r => is_word_char ch && word_tail r
  end.

(** Every character of the string is of the class. *)
Fixpoint all_word (s : string) : bool :=
  match s with
  | EmptyString => true
  | String ch r => is_word_char ch && all_word r
  end.

Definition newline : string := String "010"%char EmptyString.

End Utils.

(** * Database ([models.py]): the files of a database directory *)

Module Database.

(** [Collection.path]: the file of a collection, relative to the database
    directory. *)
Definition collection_file (name : string) : string := name +:+ ".digitool".

(** [Index.index_path]: the file of an index of that collection. *)
Definition index_file (name field : string) : string :=
  collection_file name +:+ "." +:+ field +:+ ".idx".

(** [s.endswith(suffix)]: some tail of [s] is [suffix]. *)
Fixpoint ends_with (suffix s : string) : bool :=
  String.eqb s suffix
  || match s with
     | EmptyString => false
     | String _ r => ends_with suffix r
     end.

(** [filename[:-9]]. *)
Definition strip_extension (filename : string) : string :=
  String.substring 0 (String.length filename - 9) filename.

(** [Database.list_collections], on the result of [os.listdir]. *)
Definition list_collections (listing : list string) : list string :=
  map strip_extension (List.filter (ends_with ".digitool") listing).

(** What sits in the directory of a database: the file of a collection, or
    the file of an index of a collection. *)
Inductive entry : Type :=
| CollectionFile (name : string)
| IndexFile (name field : string).

Definition file_name (e : entry) : string :=
  match e with
  | CollectionFile name => collection_file name
  | IndexFile name field => index_file name field
  end.

Definition collections_of (entries : list entry) : list string :=
  omap (λ e, match e with
             | CollectionFile name => Some name
             | IndexFile _ _ => None
             end) entries.

Fixpoint last_char (s : string) : option ascii :=
  match s with
  | EmptyString => None
  | String ch EmptyString => Some ch
  | String _ r => last_char r
  end.

End Database.

(** * Properties *)

(** ** The index loop of the manager *)

Section for_each_index.
Variable step : string → index_map → index_map * bool.
Variable c : collection.

Lemma for_each_index_documents :
  documents (IndexManager.for_each_index step c) = documents c.
Proof. reflexivity. Qed.

Lemma for_each_index_lookup (field : string) :
  indices (IndexManager.for_each_index step c) !! field
  = (λ idx, fst (step field idx)) <$> indices c !! field.
Proof.
  unfold IndexManager.for_each_index; simpl.
  rewrite lookup_fmap, map_lookup_imap.
  destruct (indices c !! field); reflexivity.
Qed.

Lemma for_each_index_dom :
  dom (indices (IndexManager.for_each_index step c)) = dom (indices c).
Proof.
  apply set_eq; intros field.
  rewrite !elem_of_dom, for_each_index_lookup.
  destruct (indices c !! field); simpl; split; intros [x Hx];
    first [discriminate | eauto].
Qed.
End for_each_index.

Lemma insert_documents (d : obj) (uuid now1 now2 : string) (c : collection) :
  documents (snd (Collection.insert d uuid now1 now2 c))
  = documents c ++ [data (Document_init d None uuid now1 now2)].
Proof. reflexivity. Qed.

Lemma insert_list_indices (d : obj) (uuid now1 now2 : string) (c : collection) :
  Collection.list_indices (snd (Collection.insert d uuid now1 now2 c))
  = Collection.list_indices c.
Proof.
  unfold Collection.insert, Collection.insert_document, Collection.list_indices,
    IndexManager.list_indices, IndexManager.add_to_indices; simpl.
  apply for_each_index_dom.
Qed.

(** ** Unindexed evaluation is a filter *)

Lemma scan_None (q : obj) (docs : list obj) :
  Collection.scan q None docs = Ok (List.filter (Collection.matches q) docs).
Proof.
  induction docs as [|doc rest IH]; simpl; [reflexivity|].
  rewrite IH. destruct (Collection.matches q doc); reflexivity.
Qed.

Lemma find_none_of {A : Type} (f : A → bool) (l : list A) :
  (∀ x, In x l → f x = false) → List.find f l = None.
Proof.
  induction l as [|x l IH]; simpl; intros H; [reflexivity|].
  rewrite (H x (or_introl eq_refl)). apply IH. intros y Hy. apply H. now right.
Qed.

(** A non-empty query none of whose fields is indexed is answered by a
    filter over the collection file. *)
Lemma find_unindexed (q : obj) (c : collection) :
  q ≠ [] →
  (∀ k, In k (Dict.keys q) → indices c !! k = None) →
  Collection.find (Some q) c
  = Ok (List.filter (Collection.matches q) (documents c)).
Proof.
  intros Hq Hk. unfold Collection.find, _read_collection. cbv zeta.
  destruct q as [|kv q']; [congruence|].
  cbn [Collection.query_truthy negb default].
  rewrite find_none_of; [apply scan_None|].
  intros k Hin. apply bool_decide_eq_false.
  unfold Collection.list_indices, IndexManager.list_indices.
  apply not_elem_of_dom. apply Hk. exact Hin.
Qed.

(** ** C10: delete with an empty query *)

(** C10. For every collection state, [delete] with a missing query
    ([None]) or an empty one ([{}]) returns 0 and leaves the document list,
    the index files and the open indices as they are, while [find] with
    such a query returns every stored document. *)
Theorem delete_empty_query_is_noop (c : collection) :
  Collection.delete None c = (Ok 0%nat, c)
  ∧ Collection.delete (Some []) c = (Ok 0%nat, c)
  ∧ Collection.find None c = Ok (documents c)
  ∧ Collection.find (Some []) c = Ok (documents c).
Proof. repeat split. Qed.

(** ** What [find] returns *)

Lemma scan_sound (q : obj) (ids : option (list value)) (docs results : list obj) :
  Collection.scan q ids docs = Ok results →
  ∀ d, In d results → In d docs ∧ Collection.matches q d = true.
Proof.
  revert results. induction docs as [|doc rest IH]; intros results; simpl.
  - intros [= <-] d [].
  - destruct (Collection.scan q ids rest) as [res|e] eqn:Hrest.
    + specialize (IH res eq_refl).
      assert (Hskip : ∀ d, In d res →
                (doc = d ∨ In d rest) ∧ Collection.matches q d = true)
        by (intros d Hd; destruct (IH d Hd); auto).
      assert (Hkeep : ∀ keep d,
                keep = Collection.matches q doc →
                In d (if keep then doc :: res else res) →
                (doc = d ∨ In d rest) ∧ Collection.matches q d = true).
      { intros keep d -> Hd.
        destruct (Collection.matches q doc) eqn:Hm; [|auto].
        destruct Hd as [<-|Hd]; auto. }
      destruct ids as [s|].
      * destruct (Dict.get "_id" doc) as [i|]; [|discriminate].
        destruct (negb (hashable i)); [discriminate|].
        destruct (negb (py_in i s)); intros [= <-]; eauto.
      * intros [= <-]; eauto.
    + destruct ids as [s|]; [|discriminate].
      destruct (Dict.get "_id" doc) as [i|]; [|discriminate].
      destruct (negb (hashable i)); [discriminate|].
      destruct (negb (py_in i s)); discriminate.
Qed.

(** Whatever index is consulted, a document returned for a non-empty query
    is a stored document that passes every clause of the query. *)
Lemma find_sound (q : obj) (c : collection) (results : list obj) :
  q ≠ [] →
  Collection.find (Some q) c = Ok results →
  ∀ d, In d results → In d (documents c) ∧ Collection.matches q d = true.
Proof.
  intros Hq. unfold Collection.find, _read_collection. cbv zeta.
  destruct q as [|kv q']; [congruence|].
  cbn [Collection.query_truthy negb default].
  destruct (List.find _ _) as [field|].
  - destruct (str_truthy field); [|apply scan_sound].
    destruct (forallb hashable _); [|discriminate].
    destruct (IndexManager.find_by_index _ _ _).
    + intros [= <-] d [].
    + apply scan_sound.
  - apply scan_sound.
Qed.

Lemma matches_clause (q doc : obj) (k : string) (v : value) :
  Collection.matches q doc = true → In (k, v) q →
  ∃ x, Dict.get k doc = Some x ∧ py_eqb x v = true.
Proof.
  unfold Collection.matches. rewrite forallb_forall. intros H Hin.
  specialize (H _ Hin). simpl in H.
  destruct (Dict.get k doc) as [x|]; [eauto|discriminate].
Qed.

Lemma py_eqb_null (x : value) : py_eqb x VNull = true → x = VNull.
Proof. destruct x; simpl; congruence. Qed.

(** ** C8: null against absent *)

(** C8. Into an empty collection without an index on ["a"], insert
    [{"a": null}] and then [{}]: [find({"a": null})] returns exactly the
    first of the two stored documents. In every state, a document returned
    for a query with a clause [k: null] has the field [k], bound to
    [null]; a document lacking [k] is never returned. *)
Theorem null_matches_only_explicit_null
    (c : collection) (u1 u2 t1 t2 t3 t4 : string) :
  documents c = [] →
  indices c !! "a" = None →
  let c1 := snd (Collection.insert [("a", VNull)] u1 t1 t2 c) in
  let c2 := snd (Collection.insert [] u2 t3 t4 c1) in
  let d1 := [("a", VNull); ("_id", VStr u1); ("_created_at", VStr t1);
             ("_updated_at", VStr t2)] in
  let d2 := [("_id", VStr u2); ("_created_at", VStr t3);
             ("_updated_at", VStr t4)] in
  documents c2 = [d1; d2]
  ∧ Collection.find (Some [("a", VNull)]) c2 = Ok [d1]
  ∧ ∀ (s : collection) (q : obj) (k : string) (results : list obj) (d : obj),
      Collection.find (Some q) s = Ok results →
      In (k, VNull) q → In d results → Dict.get k d = Some VNull.
Proof.
  intros Hdocs Hidx c1 c2 d1 d2.
  assert (Hc2 : documents c2 = [d1; d2]).
  { subst c1 c2. rewrite !insert_documents, Hdocs. reflexivity. }
  split; [exact Hc2|split].
  - rewrite find_unindexed.
    + rewrite Hc2. reflexivity.
    + discriminate.
    + intros k [<-|[]].
      apply not_elem_of_dom.
      change (dom (indices c2)) with (Collection.list_indices c2).
      subst c1 c2. rewrite !insert_list_indices.
      apply not_elem_of_dom. exact Hidx.
  - intros s q k results d Hfind Hin Hd.
    assert (Hq : q ≠ []) by (intros ->; destruct Hin).
    destruct (find_sound q s results Hq Hfind d Hd) as [_ Hm].
    destruct (matches_clause q d k VNull Hm Hin) as (x & Hx & Hnull).
    rewrite Hx. f_equal. apply py_eqb_null. exact Hnull.
Qed.

Lemma null_matches_only_explicit_null_witness :
  documents Collection.empty = []
  ∧ indices Collection.empty !! "a" = None
  ∧ Collection.find (Some [("a", VNull)])
      (snd (Collection.insert [] "u2" "t3" "t4"
              (snd (Collection.insert [("a", VNull)] "u1" "t1" "t2"
                      Collection.empty))))
    = Ok [[("a", VNull); ("_id", VStr "u1"); ("_created_at", VStr "t1");
           ("_updated_at", VStr "t2")]].
Proof.
  split; [reflexivity|]. split; [reflexivity|].
  apply (null_matches_only_explicit_null Collection.empty
           "u1" "u2" "t1" "t2" "t3" "t4"); reflexivity.
Defined.

(** ** C5: comparison operators *)

Lemma matches_single (field : string) (lit : value) (d : obj) :
  Collection.matches [(field, lit)] d = Comparison.equals_literal field lit d.
Proof.
  unfold Collection.matches, Comparison.equals_literal; simpl.
  apply andb_true_r.
Qed.

Lemma py_eqb_singleton_dict (x : value) (op : string) (bound : value) :
  py_eqb x (VDict [(op, bound)]) = true →
  ∃ w, x = VDict [(op, w)] ∧ py_eqb w bound = true.
Proof.
  destruct x as [| | | |l|d]; try discriminate.
  destruct d as [|[k w] [|kv d']]; try discriminate.
  cbn. destruct (String.eqb_spec k op) as [->|Hne]; [|discriminate].
  rewrite andb_true_r. eauto.
Qed.

(** C5, as the specification states it, fails: [{"age": {"$lt": 30}}]
    does not select the document whose age is 25. *)
Lemma comparison_query_counterexample :
  Collection.find (Some [("age", VDict [("$lt", VNum 30)])]) Comparison.ages
  = Ok []
  ∧ Comparison.spec_find "age" "$lt" (VNum 30) (documents Comparison.ages)
    = documents Comparison.ages
  ∧ Collection.find (Some [("age", VDict [("$lt", VNum 30)])]) Comparison.ages
    ≠ Ok (Comparison.spec_find "age" "$lt" (VNum 30)
            (documents Comparison.ages)).
Proof. repeat split. vm_compute. discriminate. Qed.

(** C5, amended. Query evaluation knows equality only. A clause
    [{field: {op: bound}}] is an equality test against the nested mapping
    itself: in every state a returned document has [field] bound to a
    one-entry mapping [{op: w}] with [w == bound] (so no document whose
    field is a number or a string is returned), and when [field] has no
    index the result is exactly the stored documents whose field equals
    that mapping, in storage order. *)
Theorem comparison_clause_is_literal_equality
    (c : collection) (field op : string) (bound : value) :
  let q := [(field, VDict [(op, bound)])] in
  (∀ results d,
     Collection.find (Some q) c = Ok results → In d results →
     ∃ w, Dict.get field d = Some (VDict [(op, w)]) ∧ py_eqb w bound = true)
  ∧ (indices c !! field = None →
     Collection.find (Some q) c
     = Ok (List.filter
             (Comparison.equals_literal field (VDict [(op, bound)]))
             (documents c))).
Proof.
  intros q. split.
  - intros results d Hfind Hd.
    destruct (find_sound q c results ltac:(discriminate) Hfind d Hd) as [_ Hm].
    destruct (matches_clause q d field _ Hm (or_introl eq_refl))
      as (x & Hx & Heq).
    destruct (py_eqb_singleton_dict _ _ _ Heq) as (w & -> & Hw). eauto.
  - intros Hidx. subst q. rewrite find_unindexed.
    + f_equal. apply filter_ext. intros d. apply matches_single.
    + discriminate.
    + intros k [<-|[]]. exact Hidx.
Qed.

Lemma comparison_clause_is_literal_equality_witness :
  indices Comparison.ages !! "age" = None
  ∧ Collection.find (Some [("age", VDict [("$lt", VNum 30)])]) Comparison.ages
    = Ok (List.filter
            (Comparison.equals_literal "age" (VDict [("$lt", VNum 30)]))
            (documents Comparison.ages)).
Proof.
  split; [reflexivity|].
  apply (proj2 (comparison_clause_is_literal_equality Comparison.ages
                  "age" "$lt" (VNum 30))).
  reflexivity.
Defined.

(** ** C6: uniqueness of [_id] *)

Section dict_lemmas.
Context {A : Type}.
Implicit Types (d u : list (string * A)) (k : string).

Lemma get_set k k' (v : A) d :
  Dict.get k (Dict.set k' v d)
  = if String.eqb k k' then Some v else Dict.get k d.
Proof.
  induction d as [|[k0 v0] r IH]; simpl.
  - destruct (String.eqb k k'); reflexivity.
  - destruct (String.eqb_spec k' k0) as [->|Hne]; simpl.
    + destruct (String.eqb k k0); reflexivity.
    + rewrite IH.
      destruct (String.eqb_spec k k0) as [->|]; [|reflexivity].
      destruct (String.eqb_spec k0 k') as [->|]; [congruence|reflexivity].
Qed.

Lemma get_set_ne k k' (v : A) d :
  k ≠ k' → Dict.get k (Dict.set k' v d) = Dict.get k d.
Proof.
  intros Hne. rewrite get_set.
  destruct (String.eqb_spec k k'); [congruence|reflexivity].
Qed.

Lemma get_set_eq k (v : A) d : Dict.get k (Dict.set k v d) = Some v.
Proof. rewrite get_set, String.eqb_refl. reflexivity. Qed.

Lemma has_cons k k' (v : A) u :
  Dict.has k ((k', v) :: u) = String.eqb k k' || Dict.has k u.
Proof. unfold Dict.has; simpl. destruct (String.eqb k k'); reflexivity. Qed.

Lemma get_update_other k d u :
  Dict.has k u = false → Dict.get k (Dict.update d u) = Dict.get k d.
Proof.
  unfold Dict.update. revert d.
  induction u as [|[k' v] u IH]; intros d Hk; simpl; [reflexivity|].
  rewrite has_cons in Hk. apply orb_false_iff in Hk as [Hne Hk].
  rewrite IH by exact Hk. rewrite get_set, Hne. reflexivity.
Qed.
End dict_lemmas.

Lemma doc_ids_cons (d : obj) (docs : list obj) :
  doc_ids (d :: docs)
  = match Dict.get "_id" d with
    | Some i => i :: doc_ids docs
    | None => doc_ids docs
    end.
Proof. reflexivity. Qed.

Lemma doc_ids_app (docs1 docs2 : list obj) :
  doc_ids (docs1 ++ docs2) = doc_ids docs1 ++ doc_ids docs2.
Proof.
  induction docs1 as [|d r IH]; [reflexivity|].
  rewrite <- app_comm_cons, !doc_ids_cons, IH.
  destruct (Dict.get "_id" d); reflexivity.
Qed.

Lemma apply_inc_get_other (k : string) (kv doc doc' : obj) :
  Dict.has k kv = false → Collection.apply_inc kv doc = Ok doc' →
  Dict.get k doc' = Dict.get k doc.
Proof.
  revert doc. induction kv as [|[k' v] kv IH]; intros doc Hk; simpl.
  - intros [= <-]. reflexivity.
  - rewrite has_cons in Hk. apply orb_false_iff in Hk as [Hne Hk].
    assert (Hstep : ∀ w, Collection.apply_inc kv (Dict.set k' w doc) = Ok doc' →
                         Dict.get k doc' = Dict.get k doc).
    { intros w H. rewrite (IH _ Hk H), get_set, Hne. reflexivity. }
    destruct (Dict.get k' doc) as [x|]; [|apply Hstep].
    destruct (Collection.as_int x); [|apply Hstep].
    destruct (Collection.as_int v); [apply Hstep|discriminate].
Qed.

(** An update that does not list [_id] in its payload, and any update
    without operator, leaves the [_id] of the document as it is. *)
Lemma apply_update_id (upd doc doc' : obj) :
  assigns_id upd = false → Collection.apply_update upd doc = Ok doc' →
  Dict.get "_id" doc' = Dict.get "_id" doc.
Proof.
  unfold assigns_id, Collection.apply_update.
  destruct (Dict.get "$set" upd) as [s|].
  - destruct s; simpl; try discriminate.
    intros Hk [= <-]. apply get_update_other. exact Hk.
  - destruct (Dict.get "$inc" upd) as [s|].
    + destruct s; simpl; try discriminate.
      intros Hk. apply apply_inc_get_other. exact Hk.
    + intros _. destruct (Dict.get "_id" doc) as [i|]; [|discriminate].
      intros [= <-]. apply get_set_eq.
Qed.

Lemma update_one_id (q : option obj) (upd : obj) (now : string)
    (doc doc' : obj) (b : bool) (c c' : collection) :
  assigns_id upd = false →
  Collection.update_one q upd now doc c = (Ok (doc', b), c') →
  Dict.get "_id" doc' = Dict.get "_id" doc ∧ documents c' = documents c.
Proof.
  intros Hk. unfold Collection.update_one.
  destruct q as [q|]; [|discriminate].
  destruct (Collection.matches q doc).
  - destruct (Collection.apply_update upd doc) as [doc1|] eqn:Hup; [|discriminate].
    destruct (Dict.get "_id" (Dict.set _ _ doc1)) eqn:Hid; [|discriminate].
    intros [= <- <- <-]. split; [|reflexivity].
    rewrite get_set_ne by discriminate. eapply apply_update_id; eauto.
  - intros [= <- <- <-]. auto.
Qed.

Lemma update_one_documents (q : option obj) (upd : obj) (now : string)
    (doc : obj) (c : collection) :
  documents (snd (Collection.update_one q upd now doc c)) = documents c.
Proof.
  unfold Collection.update_one.
  destruct q as [q|]; [|reflexivity].
  destruct (Collection.matches q doc); [|reflexivity].
  destruct (Collection.apply_update upd doc); [|reflexivity].
  destruct (Dict.get "_id" _); reflexivity.
Qed.

Lemma update_loop_documents (q : option obj) (upd : obj) (now : nat → string)
    (i : nat) (docs : list obj) (c : collection) :
  documents (snd (Collection.update_loop q upd now i docs c)) = documents c.
Proof.
  revert i c. induction docs as [|doc rest IH]; intros i c; simpl; [reflexivity|].
  pose proof (update_one_documents q upd (now i) doc c) as H1.
  destruct (Collection.update_one q upd (now i) doc c) as [[[doc' b]|e] c1];
    simpl in H1; [|exact H1].
  specialize (IH (S i) c1).
  destruct (Collection.update_loop q upd now (S i) rest c1) as [[[rest' n]|e] c2];
    simpl in *; congruence.
Qed.

Lemma update_loop_ids (q : option obj) (upd : obj) (now : nat → string)
    (i : nat) (docs docs' : list obj) (n : nat) (c c' : collection) :
  assigns_id upd = false →
  Collection.update_loop q upd now i docs c = (Ok (docs', n), c') →
  doc_ids docs' = doc_ids docs.
Proof.
  intros Hk. revert i docs' n c c'.
  induction docs as [|doc rest IH]; intros i docs' n c c'; simpl.
  - intros [= <- <- <-]. reflexivity.
  - destruct (Collection.update_one q upd (now i) doc c)
      as [[[doc' b]|e] c1] eqn:H1; [|discriminate].
    destruct (Collection.update_loop q upd now (S i) rest c1)
      as [[[rest' m]|e] c2] eqn:H2; [|discriminate].
    intros [= <- <- <-].
    destruct (update_one_id _ _ _ _ _ _ _ _ Hk H1) as [Hid _].
    rewrite !doc_ids_cons, Hid, (IH _ _ _ _ _ H2). reflexivity.
Qed.

Lemma update_ids (q : option obj) (upd : obj) (now : nat → string)
    (c : collection) :
  assigns_id upd = false →
  doc_ids (documents (snd (Collection.update q upd now c)))
  = doc_ids (documents c).
Proof.
  intros Hk. unfold Collection.update, _read_collection. cbv zeta.
  pose proof (update_loop_documents q upd now 0 (documents c) c) as Hdocs.
  destruct (Collection.update_loop q upd now 0 (documents c) c)
    as [[[docs' n]|e] c1] eqn:Hloop; simpl in Hdocs.
  - destruct (0 <? n)%nat; simpl; [|congruence].
    eapply update_loop_ids; eauto.
  - simpl. congruence.
Qed.

Lemma distinct_app_one (l : list value) (x : value) :
  distinct (l ++ [x])
  = distinct l && forallb (λ y, negb (py_eqb y x)) l.
Proof.
  induction l as [|y l IH]; simpl; [reflexivity|].
  rewrite forallb_app, IH; simpl.
  destruct (forallb (λ z, negb (py_eqb y z)) l), (py_eqb y x), (distinct l);
    simpl; reflexivity.
Qed.

Lemma forallb_doc_ids_filter (p : value → bool) (f : obj → bool)
    (docs : list obj) :
  forallb p (doc_ids docs) = true → forallb p (doc_ids (List.filter f docs)) = true.
Proof.
  induction docs as [|d r IH]; [auto|].
  rewrite doc_ids_cons. intros H.
  assert (Hr : forallb p (doc_ids r) = true).
  { destruct (Dict.get "_id" d); [|exact H].
    simpl in H. apply andb_true_iff in H as [_ H]. exact H. }
  cbn [List.filter]. destruct (f d); [|auto].
  rewrite doc_ids_cons.
  destruct (Dict.get "_id" d); [|auto].
  simpl in *. apply andb_true_iff in H as [Hp _].
  rewrite Hp. simpl. auto.
Qed.

Lemma unique_ids_filter (f : obj → bool) (docs : list obj) :
  unique_ids docs = true → unique_ids (List.filter f docs) = true.
Proof.
  unfold unique_ids.
  induction docs as [|d r IH]; [auto|].
  rewrite doc_ids_cons. intros H.
  assert (Hr : distinct (doc_ids r) = true).
  { destruct (Dict.get "_id" d); [|exact H].
    simpl in H. apply andb_true_iff in H as [_ H]. exact H. }
  cbn [List.filter]. destruct (f d); [|auto].
  rewrite doc_ids_cons.
  destruct (Dict.get "_id" d); [|auto].
  simpl in *. apply andb_true_iff in H as [Hp _].
  rewrite forallb_doc_ids_filter by exact Hp. simpl. auto.
Qed.

Lemma remove_deleted_documents (deleted_docs : list obj) (c : collection) :
  documents (snd (Collection.remove_deleted deleted_docs c)) = documents c.
Proof.
  revert c. induction deleted_docs as [|d r IH]; intros c; simpl; [reflexivity|].
  destruct (Dict.get "_id" d); [|reflexivity].
  rewrite IH. reflexivity.
Qed.

(** After [delete] the collection file holds the documents it held, or
    those of them that do not match. *)
Lemma delete_documents (q : option obj) (c : collection) :
  documents (snd (Collection.delete q c)) = documents c
  ∨ documents (snd (Collection.delete q c))
    = List.filter (λ doc, negb (Collection.matches (default [] q) doc))
        (documents c).
Proof.
  unfold Collection.delete, _read_collection. cbv zeta.
  destruct (negb (Collection.query_truthy q)); [left; reflexivity|].
  destruct (0 <? _)%nat; [|left; reflexivity].
  right.
  pose proof (remove_deleted_documents
                (List.filter (Collection.matches (default [] q)) (documents c))
                (_write_collection
                   (List.filter
                      (λ doc, negb (Collection.matches (default [] q) doc))
                      (documents c)) c)) as H.
  destruct (Collection.remove_deleted _ _) as [[u|e] c1]; exact H.
Qed.

Lemma Document_init_id (d : obj) (doc_id : option string)
    (uuid now1 now2 : string) :
  Dict.get "_id" (data (Document_init d doc_id uuid now1 now2))
  = Some (default (VStr (id (Document_init d doc_id uuid now1 now2)))
            (Dict.get "_id" d)).
Proof.
  unfold Document_init, Dict.has; simpl.
  rewrite get_set_ne by discriminate.
  destruct (Dict.get "_id" d) as [x|] eqn:Hd; simpl.
  - destruct (Dict.get "_created_at" d); [exact Hd|].
    rewrite get_set_ne by discriminate. exact Hd.
  - destruct (Dict.get "_created_at" (Dict.set "_id" _ d)); [apply get_set_eq|].
    rewrite get_set_ne by discriminate. apply get_set_eq.
Qed.

Lemma insert_doc_ids (d : obj) (uuid now1 now2 : string) (c : collection) :
  doc_ids (documents (snd (Collection.insert d uuid now1 now2 c)))
  = doc_ids (documents c) ++ [stored_id d uuid].
Proof.
  rewrite insert_documents, doc_ids_app. f_equal.
  rewrite doc_ids_cons, Document_init_id. reflexivity.
Qed.

(** C6, as the specification states it, fails: the collection holding one
    document with [_id] ["a"] has unique ids, and inserting a second
    mapping carrying [_id] ["a"] stores two documents with that [_id]. *)
Lemma duplicate_id_counterexample :
  unique_ids (documents one_a) = true
  ∧ doc_ids (documents
               (snd (Collection.insert [("_id", VStr "a")] "u2" "t3" "t4" one_a)))
    = [VStr "a"; VStr "a"]
  ∧ unique_ids
      (documents
         (snd (Collection.insert [("_id", VStr "a")] "u2" "t3" "t4" one_a)))
    = false.
Proof. repeat split. Qed.

(** C6, amended. The collection never checks [_id] for duplicates. From a
    state whose [_id] values are pairwise unequal: after [insert] they are
    pairwise unequal exactly when no stored [_id] equals the one the new
    document is stored under (the caller's [_id] if the mapping has one,
    the generated one otherwise); after [update] they are as before, and
    so pairwise unequal, when the update is a replacement or its [$set] /
    [$inc] payload does not list [_id]; after [delete] they are pairwise
    unequal. *)
Theorem id_uniqueness_preserved (c : collection) :
  unique_ids (documents c) = true →
  (∀ d uuid now1 now2,
     unique_ids (documents (snd (Collection.insert d uuid now1 now2 c)))
     = forallb (λ y, negb (py_eqb y (stored_id d uuid)))
         (doc_ids (documents c)))
  ∧ (∀ q upd now,
       assigns_id upd = false →
       doc_ids (documents (snd (Collection.update q upd now c)))
       = doc_ids (documents c)
       ∧ unique_ids (documents (snd (Collection.update q upd now c))) = true)
  ∧ (∀ q, unique_ids (documents (snd (Collection.delete q c))) = true).
Proof.
  intros Huniq. repeat split.
  - intros d uuid now1 now2. unfold unique_ids in *.
    rewrite insert_doc_ids, distinct_app_one, Huniq. reflexivity.
  - apply update_ids. assumption.
  - unfold unique_ids. rewrite update_ids by assumption. exact Huniq.
  - intros q. destruct (delete_documents q c) as [-> | ->]; [exact Huniq|].
    apply unique_ids_filter. exact Huniq.
Qed.

Lemma id_uniqueness_preserved_witness :
  unique_ids (documents one_a) = true
  ∧ unique_ids
      (documents (snd (Collection.insert [("n", VNum 1)] "u2" "t3" "t4" one_a)))
    = true
  ∧ unique_ids
      (documents
         (snd (Collection.update (Some [("_id", VStr "a")]) [("n", VNum 2)]
                 (λ _, "t5") one_a)))
    = true
  ∧ unique_ids
      (documents (snd (Collection.delete (Some [("_id", VStr "a")]) one_a)))
    = true.
Proof.
  pose proof (id_uniqueness_preserved one_a eq_refl) as (Hins & Hupd & Hdel).
  split; [reflexivity|]. split; [|split].
  - rewrite Hins. reflexivity.
  - apply (Hupd (Some [("_id", VStr "a")]) [("n", VNum 2)] (λ _, "t5")).
    reflexivity.
  - apply Hdel.
Defined.

(** ** C1: insert, then find by the returned id *)

(** For a mapping without [_id], and a generated id that no stored
    document carries, the round trip holds when [_id] has no index: the
    returned id is the generated one, and finding it returns the one
    document stored for the mapping. *)
Lemma insert_find_roundtrip (c : collection) (d : obj)
    (uuid now1 now2 : string) :
  Dict.get "_id" d = None →
  indices c !! "_id" = None →
  forallb (λ y, negb (py_eqb y (VStr uuid))) (doc_ids (documents c)) = true →
  let '(i, c1) := Collection.insert d uuid now1 now2 c in
  i = uuid
  ∧ Collection.find (Some [("_id", VStr i)]) c1
    = Ok [data (Document_init d None uuid now1 now2)].
Proof.
  intros Hd Hidx Hfresh.
  destruct (Collection.insert d uuid now1 now2 c) as [i c1] eqn:Hins.
  assert (Hi : i = uuid) by (injection Hins as <- _; reflexivity).
  assert (Hc1 : c1 = snd (Collection.insert d uuid now1 now2 c))
    by (rewrite Hins; reflexivity).
  split; [exact Hi|]. subst i. rewrite find_unindexed.
  - f_equal. rewrite Hc1, insert_documents, List.filter_app.
    assert (Hold : List.filter (Collection.matches [("_id", VStr uuid)])
                     (documents c) = []).
    { clear Hc1 Hins. induction (documents c) as [|doc rest IH]; [reflexivity|].
      rewrite doc_ids_cons in Hfresh. cbn [List.filter].
      rewrite matches_single. unfold Comparison.equals_literal.
      destruct (Dict.get "_id" doc) as [y|]; [|apply IH, Hfresh].
      simpl in Hfresh. apply andb_true_iff in Hfresh as [Hy Hrest].
      apply negb_true_iff in Hy. rewrite Hy. apply IH, Hrest. }
    rewrite Hold. cbn [List.filter app].
    rewrite matches_single. unfold Comparison.equals_literal.
    rewrite Document_init_id, Hd. simpl. rewrite String.eqb_refl. reflexivity.
  - discriminate.
  - intros k [<-|[]]. apply not_elem_of_dom.
    change (dom (indices c1)) with (Collection.list_indices c1).
    rewrite Hc1, insert_list_indices. apply not_elem_of_dom. exact Hidx.
Qed.

(** C1. At the mapping [{"_id": "custom", "name": "Test"}] the round trip
    fails: [insert] stores the document under the caller's [_id] and
    returns the generated id, which no stored document carries, so
    [find] by the returned id is empty. *)
Theorem insert_returns_unstored_id :
  let '(i, c1) :=
    Collection.insert [("_id", VStr "custom"); ("name", VStr "Test")]
      "u1" "t1" "t2" Collection.empty in
  i = "u1"
  ∧ documents c1
    = [[("_id", VStr "custom"); ("name", VStr "Test");
        ("_created_at", VStr "t1"); ("_updated_at", VStr "t2")]]
  ∧ Collection.find (Some [("_id", VStr i)]) c1 = Ok []
  ∧ Collection.find (Some [("_id", VStr "custom")]) c1 = Ok (documents c1).
Proof. repeat split. Qed.

(** ** C2: find with and without an index *)

(** C2. With the index on ["a"] in place when [{"a": null}] is inserted,
    [find({"a": null})] returns nothing. On the same collection file the
    query returns the document when the index is dropped, when it was
    never created, and when it is created after the insert (it is then
    built by [_build_index]). *)
Theorem index_hides_null_document :
  documents indexed_null
  = [[("a", VNull); ("_id", VStr "u1"); ("_created_at", VStr "t1");
      ("_updated_at", VStr "t2")]]
  ∧ Collection.list_indices indexed_null = {["a"]}
  ∧ Collection.find (Some [("a", VNull)]) indexed_null = Ok []
  ∧ Collection.find (Some [("a", VNull)])
      (snd (Collection.drop_index "a" indexed_null))
    = Ok (documents indexed_null)
  ∧ Collection.find (Some [("a", VNull)])
      (snd (Collection.insert [("a", VNull)] "u1" "t1" "t2" Collection.empty))
    = Ok (documents indexed_null)
  ∧ Collection.find (Some [("a", VNull)])
      (snd (Collection.create_index "a"
              (snd (Collection.insert [("a", VNull)] "u1" "t1" "t2"
                      Collection.empty))))
    = Ok (documents indexed_null).
Proof. repeat split. Qed.

(** ** C3: the state of an index after a mutation *)

(** C3. After the update the only stored document has ["a"] bound to
    ["x"], and its id is in the bucket of ["x"] and still in the bucket of
    the empty string. *)
Theorem stale_bucket_after_update :
  documents renamed
  = [[("a", VStr "x"); ("_id", VStr "u1"); ("_created_at", VStr "t1");
      ("_updated_at", VStr "t3")]]
  ∧ IndexManager.find_by_index "a" (VStr "x") renamed = [VStr "u1"]
  ∧ IndexManager.find_by_index "a" (VStr EmptyString) renamed = [VStr "u1"]
  ∧ Index._get_indexable_value (VStr "x")
    ≠ Index._get_indexable_value (VStr EmptyString).
Proof. repeat split. discriminate. Qed.

(** ** C4: update without operator *)

(** Without [$set] and [$inc], a field that the update does not list keeps
    its value, and [_id] keeps its value whatever the update lists. *)
Lemma update_without_operator_merges (upd doc doc' : obj) (k : string) :
  Dict.get "$set" upd = None → Dict.get "$inc" upd = None →
  Collection.apply_update upd doc = Ok doc' →
  Dict.get "_id" doc' = Dict.get "_id" doc
  ∧ (Dict.has k upd = false → k ≠ "_id" → Dict.get k doc' = Dict.get k doc).
Proof.
  intros Hset Hinc. unfold Collection.apply_update. rewrite Hset, Hinc.
  destruct (Dict.get "_id" doc) as [i|]; [|discriminate].
  intros [= <-]. split; [apply get_set_eq|].
  intros Hk Hne. rewrite get_set_ne by exact Hne.
  apply get_update_other. exact Hk.
Qed.

(** C4. The update [{"a": 5}] applied to the stored document
    [{"a": 1, "b": 2}] keeps ["b"]: the fields of the update are merged
    into the document. *)
Theorem replacement_keeps_unlisted_fields :
  Collection.update (Some [("_id", VStr "u1")]) [("a", VNum 5)] (λ _, "t3")
    (snd (Collection.insert [("a", VNum 1); ("b", VNum 2)] "u1" "t1" "t2"
            Collection.empty))
  = (Ok 1%nat,
     mkCollection
       [[("a", VNum 5); ("b", VNum 2); ("_id", VStr "u1");
         ("_created_at", VStr "t1"); ("_updated_at", VStr "t3")]]
       ∅ ∅).
Proof. reflexivity. Qed.

(** ** C7: an index rebuilt from the collection file *)

(** C7. The index maintained by the two inserts answers [[u1]] for 1 and
    nothing for null. Once its file is deleted, reopening the collection
    finds no index on ["a"], so the lookup of 1 is empty; and the index
    that [create_index] then rebuilds from the collection file answers
    [[u2]] for null. *)
Theorem rebuilt_index_differs :
  let reopened := Collection.reopen (unlink_artifact "a" one_and_null) in
  let rebuilt := snd (Collection.create_index "a" reopened) in
  IndexManager.find_by_index "a" (VNum 1) one_and_null = [VStr "u1"]
  ∧ IndexManager.find_by_index "a" VNull one_and_null = []
  ∧ Collection.list_indices reopened = ∅
  ∧ IndexManager.find_by_index "a" (VNum 1) reopened = []
  ∧ IndexManager.find_by_index "a" (VNum 1) rebuilt = [VStr "u1"]
  ∧ IndexManager.find_by_index "a" VNull rebuilt = [VStr "u2"].
Proof. repeat split. Qed.

(** ** C9: concurrent inserts *)

(** A thread that runs its three statements without another thread running
    in between performs [Collection.insert]. *)
Lemma step_thread_serial (r : Concurrent.request) (c : collection) :
  let '(t1, c1) := Concurrent.step_thread (Concurrent.Pending r) c in
  let '(t2, c2) := Concurrent.step_thread t1 c1 in
  let '(t3, c3) := Concurrent.step_thread t2 c2 in
  (t3, c3)
  = (Concurrent.Returned
       (fst (Collection.insert (Concurrent.req_doc r) (Concurrent.req_uuid r)
               (Concurrent.req_now1 r) (Concurrent.req_now2 r) c)),
     snd (Collection.insert (Concurrent.req_doc r) (Concurrent.req_uuid r)
            (Concurrent.req_now1 r) (Concurrent.req_now2 r) c)).
Proof. reflexivity. Qed.


Lemma py_eqb_str_r (y : value) (s : string) :
  py_eqb y (VStr s) = true ↔ y = VStr s.
Proof.
  destruct y; simpl; try (split; [discriminate|congruence]).
  rewrite String.eqb_eq. split; congruence.
Qed.

Lemma py_eqb_str_l (y : value) (s : string) :
  py_eqb (VStr s) y = true ↔ y = VStr s.
Proof.
  destruct y; simpl; try (split; [discriminate|congruence]).
  rewrite String.eqb_eq. split; congruence.
Qed.










(** * Further properties of the engine *)

(** ** What an index can do to a query *)

Lemma list_filter_sublist {A : Type} (f : A → bool) (l : list A) :
  sublist (List.filter f l) l.
Proof.
  induction l as [|x l IH]; simpl; [constructor|].
  destruct (f x); constructor; exact IH.
Qed.

Lemma list_filter_filter {A : Type} (f g : A → bool) (l : list A) :
  List.filter (λ x, f x && g x) l = List.filter f (List.filter g l).
Proof.
  induction l as [|x l IH]; simpl; [reflexivity|].
  destruct (g x); simpl; rewrite ?andb_true_r, ?andb_false_r.
  - destruct (f x); rewrite IH; reflexivity.
  - exact IH.
Qed.

(** The loop of [find] under an id set: when it returns, it has kept the
    documents that are candidates and match. *)
Lemma scan_Some_inv (q : obj) (ids : list value) (docs results : list obj) :
  Collection.scan q (Some ids) docs = Ok results →
  results = List.filter (λ d, candidate ids d && Collection.matches q d) docs.
Proof.
  revert results. induction docs as [|doc rest IH]; intros results; simpl.
  - intros [= <-]. reflexivity.
  - destruct (Dict.get "_id" doc) as [i|] eqn:Hi; [|discriminate].
    assert (Hc : candidate ids doc = py_in i ids)
      by (unfold candidate; rewrite Hi; reflexivity).
    rewrite Hc.
    destruct (hashable i); simpl; [|discriminate].
    destruct (Collection.scan q (Some ids) rest) as [res|e].
    + rewrite <- (IH res eq_refl).
      destruct (py_in i ids); simpl; [|intros [= <-]; reflexivity].
      destruct (Collection.matches q doc); intros [= <-]; reflexivity.
    + destruct (py_in i ids); discriminate.
Qed.

(** When every document has a hashable [_id], the loop returns. *)
Lemma scan_Some_total (q : obj) (ids : list value) (docs : list obj) :
  forallb has_hashable_id docs = true →
  Collection.scan q (Some ids) docs
  = Ok (List.filter (λ d, candidate ids d && Collection.matches q d) docs).
Proof.
  induction docs as [|doc rest IH]; simpl; [reflexivity|].
  intros H. apply andb_true_iff in H as [Hdoc Hrest].
  rewrite (IH Hrest). unfold has_hashable_id in Hdoc.
  destruct (Dict.get "_id" doc) as [i|] eqn:Hi; [|discriminate].
  assert (Hc : candidate ids doc = py_in i ids)
    by (unfold candidate; rewrite Hi; reflexivity).
  rewrite Hc, Hdoc. simpl.
  destruct (py_in i ids); simpl; [|reflexivity].
  destruct (Collection.matches q doc); reflexivity.
Qed.

Lemma filter_no_candidate (f : obj → bool) (docs : list obj) :
  List.filter (λ d, candidate [] d && f d) docs = [].
Proof.
  induction docs as [|d r IH]; [reflexivity|].
  cbn [List.filter]. unfold candidate at 1.
  destruct (Dict.get "_id" d); simpl; exact IH.
Qed.

(** X1. Whatever indices exist, the documents [find] returns for a
    non-empty query are a sublist of what the full scan selects: an index
    can drop documents from the answer, it cannot add one or change the
    order. *)
Theorem find_is_sublist_of_full_scan
    (q : obj) (c : collection) (results : list obj) :
  q ≠ [] →
  Collection.find (Some q) c = Ok results →
  sublist results (List.filter (Collection.matches q) (documents c)).
Proof.
  intros Hq. unfold Collection.find, _read_collection. cbv zeta.
  destruct q as [|kv q']; [congruence|].
  cbn [Collection.query_truthy negb default from_option Datatypes.id].
  assert (Hnone : Collection.scan (kv :: q') None (documents c) = Ok results →
                  sublist results
                    (List.filter (Collection.matches (kv :: q')) (documents c))).
  { rewrite scan_None. intros [= <-]. reflexivity. }
  assert (Hsome : ∀ ids,
            Collection.scan (kv :: q') (Some ids) (documents c) = Ok results →
            sublist results
              (List.filter (Collection.matches (kv :: q')) (documents c))).
  { intros ids H. apply scan_Some_inv in H. rewrite H, list_filter_filter.
    apply list_filter_sublist. }
  destruct (List.find _ _) as [field|]; [|exact Hnone].
  destruct (str_truthy field); [|exact Hnone].
  destruct (forallb hashable _); [|discriminate].
  destruct (IndexManager.find_by_index _ _ _) as [|i ids] eqn:Hids.
  - intros [= <-]. apply sublist_nil_l.
  - apply Hsome.
Qed.

Lemma find_is_sublist_of_full_scan_witness :
  Collection.find (Some [("age", VNum 25)]) people
  = Ok [[("name", VStr "Bob"); ("age", VNum 25); ("_id", VStr "u2");
         ("_created_at", VStr "t3"); ("_updated_at", VStr "t4")]]
  ∧ sublist
      [[("name", VStr "Bob"); ("age", VNum 25); ("_id", VStr "u2");
        ("_created_at", VStr "t3"); ("_updated_at", VStr "t4")]]
      (List.filter (Collection.matches [("age", VNum 25)]) (documents people)).
Proof.
  split; [reflexivity|].
  apply (find_is_sublist_of_full_scan [("age", VNum 25)] people);
    [discriminate|reflexivity].
Defined.

Lemma find_with_covering_index (q : obj) (c : collection) :
  q ≠ [] →
  forallb has_hashable_id (documents c) = true →
  (∀ field,
     In field (Dict.keys q) → is_Some (indices c !! field) →
     let ids :=
       IndexManager.find_by_index field (Index.get_or_none field q) c in
     forallb hashable ids = true
     ∧ ∀ d, In d (documents c) → Collection.matches q d = true →
            candidate ids d = true) →
  Collection.find (Some q) c
  = Ok (List.filter (Collection.matches q) (documents c)).
Proof.
  intros Hq Hdocs Hcover. unfold Collection.find, _read_collection. cbv zeta.
  destruct q as [|kv q']; [congruence|].
  cbn [Collection.query_truthy negb default from_option Datatypes.id].
  destruct (List.find _ _) as [field|] eqn:Hfind; [|apply scan_None].
  destruct (str_truthy field); [|apply scan_None].
  apply List.find_some in Hfind as [Hin Hdec].
  apply bool_decide_eq_true in Hdec.
  unfold Collection.list_indices, IndexManager.list_indices in Hdec.
  apply elem_of_dom in Hdec.
  destruct (Hcover field Hin Hdec) as [Hhash Hall].
  rewrite Hhash.
  assert (Heq : List.filter
                  (λ d, candidate
                          (IndexManager.find_by_index field
                             (Index.get_or_none field (kv :: q')) c) d
                        && Collection.matches (kv :: q') d) (documents c)
                = List.filter (Collection.matches (kv :: q')) (documents c)).
  { apply filter_ext_in. intros d Hd.
    destruct (Collection.matches (kv :: q') d) eqn:Hm.
    - rewrite (Hall d Hd Hm). reflexivity.
    - apply andb_false_r. }
  destruct (IndexManager.find_by_index _ _ _) as [|i ids] eqn:Hids.
  - rewrite <- Heq, filter_no_candidate. reflexivity.
  - rewrite scan_Some_total by exact Hdocs. f_equal. exact Heq.
Qed.

(** X2. An index that covers the query does not change the answer. If
    every stored document has a hashable [_id] and, for every indexed
    field of the query, the ids the index gives for the queried value are
    hashable and include the [_id] of every matching document, then
    [find] returns exactly the matching documents in storage order. *)
Theorem covering_index_is_transparent (q : obj) (c : collection) :
  q ≠ [] →
  forallb has_hashable_id (documents c) = true →
  (∀ field,
     In field (Dict.keys q) → is_Some (indices c !! field) →
     let ids :=
       IndexManager.find_by_index field (Index.get_or_none field q) c in
     forallb hashable ids = true
     ∧ ∀ d, In d (documents c) → Collection.matches q d = true →
            candidate ids d = true) →
  Collection.find (Some q) c
  = Ok (List.filter (Collection.matches q) (documents c)).
Proof. intros Hq Hdocs Hcover. apply find_with_covering_index; assumption. Qed.

Lemma covering_index_is_transparent_witness :
  Collection.find (Some [("age", VNum 25)]) people
  = Ok (List.filter (Collection.matches [("age", VNum 25)]) (documents people)).
Proof.
  apply (covering_index_is_transparent [("age", VNum 25)] people).
  - discriminate.
  - reflexivity.
  - intros field [<-|[]] _. split; [reflexivity|].
    intros d [<-|[<-|[]]]; vm_compute; congruence.
Defined.

(** ** An index built from the collection file *)

Lemma append_ensure_lookup (k key : string) (i : value) (index : index_map) :
  default [] (Index.append_id k i (Index.ensure_bucket k index) !! key)
  = if String.eqb k key then default [] (index !! key) ++ [i]
    else default [] (index !! key).
Proof.
  unfold Index.append_id, Index.ensure_bucket.
  destruct (String.eqb_spec k key) as [->|Hne].
  - rewrite lookup_insert_eq.
    destruct (index !! key) as [b|] eqn:Hb; simpl.
    + rewrite Hb. reflexivity.
    + rewrite lookup_insert_eq. reflexivity.
  - rewrite lookup_insert_ne by exact Hne.
    destruct (index !! k); [reflexivity|].
    rewrite lookup_insert_ne by exact Hne. reflexivity.
Qed.

(** The loop of [_build_index] appends to each bucket the ids of the
    documents whose field has the key of the bucket, in storage order. *)
Lemma build_loop_lookup (field : string) (docs : list obj) (index : index_map)
    (v : value) :
  default [] (Index.build_loop field docs index !! Index._get_indexable_value v)
  = default [] (index !! Index._get_indexable_value v)
    ++ map (Index.get_or_none "_id") (List.filter (keyed_as field v) docs).
Proof.
  revert index. induction docs as [|d r IH]; intros index; simpl.
  - rewrite app_nil_r. reflexivity.
  - unfold keyed_as at 1.
    destruct (Dict.get field d) as [x|]; [|apply IH].
    rewrite IH, append_ensure_lookup.
    destruct (String.eqb _ _); simpl; [|reflexivity].
    rewrite <- app_assoc. reflexivity.
Qed.

(** X3. For a field whose index file can be created (a field without
    ["/"] and without a NUL character), in the index that [_build_index]
    builds from the collection file the lookup of a value returns the
    [_id] ([None] when a document has none) of exactly the stored
    documents that have the field with the same index key as the value,
    one entry per document, in storage order. *)
Theorem built_index_lookup (field : string) (docs : list obj) (v : value) :
  Index.savable field = true →
  Index.find_doc_ids (Index._build_index field docs) v
  = map (Index.get_or_none "_id") (List.filter (keyed_as field v) docs).
Proof.
  intros Hsave. unfold Index.find_doc_ids, Index._build_index.
  rewrite Hsave, build_loop_lookup, lookup_empty. reflexivity.
Qed.

Lemma built_index_lookup_witness :
  Index.find_doc_ids (Index._build_index "age" (documents people)) (VNum 25)
  = [VStr "u2"].
Proof.
  rewrite (built_index_lookup "age" (documents people) (VNum 25) eq_refl).
  reflexivity.
Defined.

Lemma py_eqb_refl_hashable (i : value) : hashable i = true → py_eqb i i = true.
Proof.
  destruct i; simpl; try discriminate; intros _.
  - reflexivity.
  - destruct b; reflexivity.
  - apply Z.eqb_refl.
  - apply String.eqb_refl.
Qed.

Lemma py_in_In (i : value) (ids : list value) :
  hashable i = true → In i ids → py_in i ids = true.
Proof.
  intros Hi Hin. unfold py_in. apply existsb_exists.
  exists i. split; [exact Hin|apply py_eqb_refl_hashable, Hi].
Qed.

Lemma hashable_ids_of (docs : list obj) :
  forallb has_hashable_id docs = true →
  forallb hashable (map (Index.get_or_none "_id") docs) = true.
Proof.
  induction docs as [|d r IH]; simpl; [reflexivity|].
  intros H. apply andb_true_iff in H as [Hd Hr].
  rewrite (IH Hr), andb_true_r.
  unfold has_hashable_id in Hd. unfold Index.get_or_none.
  destruct (Dict.get "_id" d); [exact Hd|discriminate].
Qed.

Lemma forallb_list_filter {A : Type} (p f : A → bool) (l : list A) :
  forallb p l = true → forallb p (List.filter f l) = true.
Proof.
  induction l as [|x l IH]; simpl; [reflexivity|].
  intros H. apply andb_true_iff in H as [Hx Hl].
  destruct (f x); simpl; [rewrite Hx|]; auto.
Qed.

(** X4. Creating an index on a field that had none (and no index file),
    and whose index file can be created (a field without ["/"] and
    without a NUL character), does not change the answer to an equality
    query for a string on that field, when every stored document has a
    hashable [_id]: the index built from the file covers every document
    the query selects. *)
Theorem fresh_index_is_transparent_for_strings
    (c : collection) (field s : string) :
  Index.savable field = true →
  indices c !! field = None →
  artifacts c !! field = None →
  forallb has_hashable_id (documents c) = true →
  Collection.find (Some [(field, VStr s)])
    (snd (Collection.create_index field c))
  = Collection.find (Some [(field, VStr s)]) c.
Proof.
  intros Hsave Hidx Hart Hdocs.
  etransitivity;
    [|symmetry; apply find_unindexed;
      [discriminate|intros k [<-|[]]; exact Hidx]].
  assert (Hc' : snd (Collection.create_index field c)
                = mkCollection (documents c)
                    (<[field := Index._build_index field (documents c)]>
                       (artifacts c))
                    (<[field := Index._build_index field (documents c)]>
                       (indices c))).
  { unfold Collection.create_index, IndexManager.ensure_index,
      IndexManager.new_Index, Index._load_or_build_index; simpl.
    rewrite Hidx, Hart, Hsave. reflexivity. }
  rewrite Hc'.
  refine (find_with_covering_index [(field, VStr s)]
            (mkCollection (documents c) _ _) _ _ _).
  - discriminate.
  - exact Hdocs.
  - intros k [<-|[]] _. cbn [documents].
    unfold IndexManager.find_by_index. cbn [indices].
    rewrite lookup_insert_eq.
    unfold Index.get_or_none at 1 2. cbn [Dict.get].
    rewrite String.eqb_refl. cbn [default from_option Datatypes.id].
    unfold Index.find_doc_ids, Index._build_index.
    rewrite Hsave, build_loop_lookup, lookup_empty.
    cbn [default from_option Datatypes.id app].
    split.
    + apply hashable_ids_of, forallb_list_filter, Hdocs.
    + intros d Hd Hm.
      destruct (matches_clause _ _ field (VStr s) Hm (or_introl eq_refl))
        as (x & Hx & Heq).
      apply py_eqb_str_r in Heq as ->.
      assert (Hk : keyed_as field (VStr s) d = true).
      { unfold keyed_as. rewrite Hx. apply String.eqb_refl. }
      assert (Hhd : has_hashable_id d = true).
      { rewrite forallb_forall in Hdocs. apply Hdocs, Hd. }
      unfold candidate. unfold has_hashable_id in Hhd.
      destruct (Dict.get "_id" d) as [i|] eqn:Hi; [|discriminate].
      apply py_in_In; [exact Hhd|].
      apply in_map_iff. exists d. split.
      * unfold Index.get_or_none. rewrite Hi. reflexivity.
      * apply filter_In. split; assumption.
Qed.

Lemma fresh_index_is_transparent_for_strings_witness :
  let c := snd (Collection.insert [("name", VStr "Bob")] "u1" "t1" "t2"
                  Collection.empty) in
  Collection.find (Some [("name", VStr "Bob")])
    (snd (Collection.create_index "name" c))
  = Collection.find (Some [("name", VStr "Bob")]) c.
Proof.
  apply (fresh_index_is_transparent_for_strings
           (snd (Collection.insert [("name", VStr "Bob")] "u1" "t1" "t2"
                   Collection.empty)) "name" "Bob"); reflexivity.
Defined.

(** ** One index: add, remove *)

Lemma ensure_bucket_lookup (key : string) (index : index_map) :
  default [] (Index.ensure_bucket key index !! key) = default [] (index !! key).
Proof.
  unfold Index.ensure_bucket.
  destruct (index !! key) as [b|] eqn:Hb; [rewrite Hb; reflexivity|].
  rewrite lookup_insert_eq. reflexivity.
Qed.

Lemma ensure_bucket_present (key : string) (index : index_map) :
  is_Some (index !! key) → Index.ensure_bucket key index = index.
Proof. intros [b Hb]. unfold Index.ensure_bucket. rewrite Hb. reflexivity. Qed.

Lemma py_in_app_str (i : string) (l : list value) :
  py_in (VStr i) (l ++ [VStr i]) = true.
Proof.
  unfold py_in. rewrite existsb_app. simpl.
  rewrite String.eqb_refl. apply orb_true_iff. right. reflexivity.
Qed.

Lemma py_remove_app_str (i : string) (l : list value) :
  py_in (VStr i) l = false → py_remove (VStr i) (l ++ [VStr i]) = l.
Proof.
  induction l as [|y l IH]; simpl.
  - rewrite String.eqb_refl. reflexivity.
  - intros H. apply orb_false_iff in H as [Hy Hl].
    destruct (py_eqb y (VStr i)) eqn:Hyi.
    + apply py_eqb_str_r in Hyi as ->. simpl in Hy.
      rewrite String.eqb_refl in Hy. discriminate.
    + rewrite (IH Hl). reflexivity.
Qed.

(** X5. Adding a document under a value and removing it again restores
    the index: for a string id that is not yet in the bucket of the value,
    a value that is not null and whose key is not empty, and an index
    without an empty bucket at that key. *)
Theorem index_add_then_remove_restores
    (i : string) (v : value) (index : index_map) :
  v ≠ VNull →
  str_truthy (Index._get_indexable_value v) = true →
  index !! Index._get_indexable_value v ≠ Some [] →
  py_in (VStr i) (default [] (index !! Index._get_indexable_value v)) = false →
  Index.remove (VStr i) v (fst (Index.add (VStr i) v index)) = (index, true).
Proof.
  intros Hv Hkey Hne Hin.
  set (key := Index._get_indexable_value v) in *.
  assert (Hadd : fst (Index.add (VStr i) v index)
                 = <[key := default [] (index !! key) ++ [VStr i]]>
                     (Index.ensure_bucket key index)).
  { unfold Index.add, Index.put_id. fold key.
    rewrite ensure_bucket_lookup, Hin.
    unfold Index.append_id. rewrite ensure_bucket_lookup.
    destruct v; try reflexivity. congruence. }
  rewrite Hadd. unfold Index.remove.
  assert (Hk : Index.key_of v = Some key) by (destruct v; [congruence|..]; reflexivity).
  rewrite Hk, Hkey, lookup_insert_eq. f_equal.
  unfold Index.drop_id. rewrite py_in_app_str, py_remove_app_str by exact Hin.
  rewrite insert_insert_eq.
  destruct (index !! key) as [[|y b]|] eqn:Hb; [congruence| |].
  - rewrite ensure_bucket_present by (rewrite Hb; eauto).
    apply insert_id. exact Hb.
  - cbn [default from_option Datatypes.id].
    unfold Index.ensure_bucket. rewrite Hb, !delete_insert_eq.
    apply delete_id. exact Hb.
Qed.

Lemma index_add_then_remove_restores_witness :
  Index.remove (VStr "u1") (VNum 7) (fst (Index.add (VStr "u1") (VNum 7) ∅))
  = (∅, true).
Proof.
  apply (index_add_then_remove_restores "u1" (VNum 7) ∅).
  - discriminate.
  - reflexivity.
  - rewrite lookup_empty. discriminate.
  - reflexivity.
Defined.

(** X6. Adding the same string id under the same value a second time
    changes nothing and does not write the index file: a bucket never
    holds an id twice through [add]. *)
Theorem index_add_is_idempotent (i : string) (v : value) (index : index_map) :
  Index.add (VStr i) v (fst (Index.add (VStr i) v index))
  = (fst (Index.add (VStr i) v index), false).
Proof.
  assert (Hcase : v = VNull ∨ v ≠ VNull)
    by (destruct v; [left; reflexivity|right; discriminate..]).
  destruct Hcase as [->|Hv]; [reflexivity|].
  set (key := Index._get_indexable_value v).
  assert (Hput : ∀ idx, Index.add (VStr i) v idx = Index.put_id (VStr i) key idx)
    by (intros idx; destruct v; try reflexivity; congruence).
  rewrite !Hput.
  assert (Hpres : is_Some (Index.ensure_bucket key index !! key)).
  { unfold Index.ensure_bucket. destruct (index !! key) eqn:Hb.
    - rewrite Hb. eauto.
    - rewrite lookup_insert_eq. eauto. }
  set (index' := fst (Index.put_id (VStr i) key index)).
  assert (Hfacts : is_Some (index' !! key)
                   ∧ py_in (VStr i) (default [] (index' !! key)) = true).
  { subst index'. unfold Index.put_id.
    destruct (py_in (VStr i) (default [] (Index.ensure_bucket key index !! key)))
      eqn:Hin; cbn [fst].
    - split; [exact Hpres|exact Hin].
    - unfold Index.append_id. rewrite lookup_insert_eq.
      split; [eauto|]. cbn [default from_option Datatypes.id].
      apply py_in_app_str. }
  destruct Hfacts as [Hpres' Hin'].
  unfold Index.put_id at 1.
  rewrite (ensure_bucket_present key index' Hpres'), Hin'. reflexivity.
Qed.

(** ** The index files and the open indices *)

Lemma for_each_index_in_sync
    (step : string → index_map → index_map * bool) (c : collection) :
  (∀ f idx, snd (step f idx) = false → fst (step f idx) = idx) →
  in_sync c → in_sync (IndexManager.for_each_index step c).
Proof.
  unfold in_sync, IndexManager.for_each_index. intros Hstep Hc. simpl.
  apply map_eq. intros k.
  rewrite lookup_fmap, map_lookup_imap.
  destruct (indices c !! k) as [idx|] eqn:Hk; simpl.
  - destruct (snd (step k idx)) eqn:Hs.
    + apply lookup_union_Some_l. rewrite lookup_fmap.
      erewrite map_lookup_filter_Some_2; [reflexivity| |exact Hs].
      rewrite map_lookup_imap, Hk. reflexivity.
    + rewrite lookup_union_r.
      * rewrite Hc, Hk, (Hstep k idx Hs). reflexivity.
      * rewrite lookup_fmap. apply fmap_None.
        apply map_lookup_filter_None_2. right. intros x Hx.
        rewrite map_lookup_imap, Hk in Hx. injection Hx as <-.
        simpl. congruence.
  - rewrite lookup_union_r; [rewrite Hc; exact Hk|].
    rewrite lookup_fmap. apply fmap_None.
    apply map_lookup_filter_None_2. left.
    rewrite map_lookup_imap, Hk. reflexivity.
Qed.

Lemma add_unsaved (i v : value) (index : index_map) :
  snd (Index.add i v index) = false → fst (Index.add i v index) = index.
Proof.
  assert (Hput : ∀ key, snd (Index.put_id i key index) = false →
                        fst (Index.put_id i key index) = index).
  { intros key. unfold Index.put_id. rewrite ensure_bucket_lookup.
    destruct (py_in i (default [] (index !! key))) eqn:Hin; [|discriminate].
    intros _. simpl. apply ensure_bucket_present.
    destruct (index !! key); [eauto|discriminate]. }
  destruct v; simpl; auto.
Qed.

Lemma remove_unsaved (i v : value) (index : index_map) :
  snd (Index.remove i v index) = false → fst (Index.remove i v index) = index.
Proof.
  unfold Index.remove.
  destruct (Index.key_of v) as [k|]; [|reflexivity].
  destruct (str_truthy k); [|reflexivity].
  destruct (index !! k); [discriminate|reflexivity].
Qed.

Lemma add_to_indices_in_sync (i : value) (d : obj) (c : collection) :
  in_sync c → in_sync (IndexManager.add_to_indices i d c).
Proof.
  apply for_each_index_in_sync. intros f idx.
  destruct (Dict.get f d); [apply add_unsaved|reflexivity].
Qed.

Lemma remove_from_indices_in_sync (i : value) (d : obj) (c : collection) :
  in_sync c → in_sync (IndexManager.remove_from_indices i d c).
Proof.
  apply for_each_index_in_sync. intros f idx.
  destruct (Dict.get f d); [apply remove_unsaved|reflexivity].
Qed.

Lemma update_indices_in_sync (i : value) (old new : obj) (c : collection) :
  in_sync c → in_sync (IndexManager.update_indices i old new c).
Proof.
  apply for_each_index_in_sync. intros f idx. cbv beta zeta.
  destruct (negb (py_eqb _ _)); [discriminate|reflexivity].
Qed.

Lemma update_loop_in_sync (q : option obj) (upd : obj) (now : nat → string)
    (n : nat) (docs : list obj) (c : collection) :
  in_sync c → in_sync (snd (Collection.update_loop q upd now n docs c)).
Proof.
  revert n c. induction docs as [|doc rest IH]; intros n c Hc; [exact Hc|].
  simpl.
  assert (H1 : in_sync (snd (Collection.update_one q upd (now n) doc c))).
  { unfold Collection.update_one. destruct q as [q|]; [|exact Hc].
    destruct (Collection.matches q doc); [|exact Hc].
    destruct (Collection.apply_update upd doc); [|exact Hc].
    destruct (Dict.get "_id" _); [|exact Hc].
    apply update_indices_in_sync, Hc. }
  destruct (Collection.update_one q upd (now n) doc c) as [[[doc' b]|e] c1];
    [|exact H1].
  specialize (IH (S n) c1 H1).
  destruct (Collection.update_loop q upd now (S n) rest c1)
    as [[[rest' m]|e] c2]; exact IH.
Qed.

Lemma remove_deleted_in_sync (deleted : list obj) (c : collection) :
  in_sync c → in_sync (snd (Collection.remove_deleted deleted c)).
Proof.
  revert c. induction deleted as [|d r IH]; intros c Hc; [exact Hc|].
  simpl. destruct (Dict.get "_id" d); [|exact Hc].
  apply IH, remove_from_indices_in_sync, Hc.
Qed.

(** X7. The operations of a collection leave the index files equal to
    the open indices: if they are equal before [insert], [update],
    [delete] or [drop_index], they are equal after it, also when
    [update] or [delete] raises; and they are equal after [create_index]
    on a field whose index file can be created (a field without ["/"]
    and without a NUL character). *)
Theorem operations_keep_index_files_in_sync (c : collection) :
  in_sync c →
  (∀ d uuid now1 now2,
     in_sync (snd (Collection.insert d uuid now1 now2 c)))
  ∧ (∀ q upd now, in_sync (snd (Collection.update q upd now c)))
  ∧ (∀ q, in_sync (snd (Collection.delete q c)))
  ∧ (∀ field, Index.savable field = true →
       in_sync (snd (Collection.create_index field c)))
  ∧ (∀ field, in_sync (snd (Collection.drop_index field c))).
Proof.
  intros Hc. repeat split.
  - intros d uuid now1 now2. apply add_to_indices_in_sync. exact Hc.
  - intros q upd now. unfold Collection.update, _read_collection. cbv zeta.
    pose proof (update_loop_in_sync q upd now 0 (documents c) c Hc) as H.
    destruct (Collection.update_loop q upd now 0 (documents c) c)
      as [[[docs' n]|e] c1]; [|exact H].
    destruct (0 <? n)%nat; exact H.
  - intros q. unfold Collection.delete, _read_collection. cbv zeta.
    destruct (negb (Collection.query_truthy q)); [exact Hc|].
    destruct (0 <? _)%nat; [|exact Hc].
    match goal with
    | |- context [Collection.remove_deleted ?l ?s] =>
        pose proof (remove_deleted_in_sync l s Hc) as H;
        destruct (Collection.remove_deleted l s) as [[u|e] c1]; exact H
    end.
  - intros field Hsave.
    unfold Collection.create_index, IndexManager.ensure_index.
    cbn [snd]. destruct (indices c !! field) eqn:Hf; [exact Hc|].
    unfold IndexManager.new_Index, Index._load_or_build_index.
    unfold in_sync in *.
    assert (Hart : artifacts c !! field = None) by (rewrite Hc; exact Hf).
    rewrite Hart, Hsave. simpl. rewrite Hc. reflexivity.
  - intros field. unfold Collection.drop_index, IndexManager.drop_index.
    destruct (indices c !! field); [|exact Hc].
    unfold in_sync in *; simpl. rewrite Hc. reflexivity.
Qed.

Lemma operations_keep_index_files_in_sync_witness :
  in_sync Collection.empty
  ∧ in_sync (snd (Collection.insert [("age", VNum 25)] "u1" "t1" "t2" people))
  ∧ in_sync (snd (Collection.delete (Some [("age", VNum 25)]) people))
  ∧ in_sync (snd (Collection.create_index "name" people)).
Proof.
  split; [reflexivity|].
  assert (Hp : in_sync people) by reflexivity.
  destruct (operations_keep_index_files_in_sync people Hp)
    as (Hins & _ & Hdel & Hcreate & _).
  split; [apply Hins|]. split; [apply Hdel|].
  apply Hcreate. reflexivity.
Defined.

(** ** Reopening a collection *)

Lemma string_app_assoc (a b c : string) : (a +:+ b) +:+ c = a +:+ (b +:+ c).
Proof.
  induction a as [|ch a IH]; [reflexivity|].
  change (String ch ((a +:+ b) +:+ c) = String ch (a +:+ (b +:+ c))).
  f_equal. exact IH.
Qed.

Lemma string_app_nil_r (a : string) : a +:+ EmptyString = a.
Proof.
  induction a as [|ch a IH]; [reflexivity|].
  change (String ch (a +:+ EmptyString) = String ch a).
  f_equal. exact IH.
Qed.

Lemma last_component_no_dot (acc s : string) :
  no_dot s = true → IndexManager.last_component acc s = acc +:+ s.
Proof.
  revert acc. induction s as [|ch r IH]; intros acc; simpl.
  - intros _. symmetry. apply string_app_nil_r.
  - intros H. apply andb_true_iff in H as [Hch Hr].
    apply negb_true_iff in Hch. rewrite Hch, (IH _ Hr).
    apply string_app_assoc.
Qed.

Lemma last_component_after_dot (acc p s : string) :
  IndexManager.last_component acc (p +:+ String "."%char s)
  = IndexManager.last_component EmptyString s.
Proof.
  revert acc. induction p as [|ch p IH]; intros acc; simpl.
  - reflexivity.
  - destruct (Ascii.eqb ch "."%char); apply IH.
Qed.

(** X8. The field under which [_load_indices] registers an index file is
    the text after the last dot of the field the file was written for: a
    field without a dot is reloaded under its own name, and an index
    created on a field [p.s] is reloaded as an index on [s]. *)
Theorem index_file_field_is_last_component (p s : string) :
  no_dot s = true →
  IndexManager.field_of_artifact s = s
  ∧ IndexManager.field_of_artifact (p +:+ String "."%char s) = s.
Proof.
  intros Hs. unfold IndexManager.field_of_artifact. split.
  - apply (last_component_no_dot EmptyString s Hs).
  - rewrite last_component_after_dot.
    apply (last_component_no_dot EmptyString s Hs).
Qed.

Lemma index_file_field_is_last_component_witness :
  no_dot "city" = true
  ∧ IndexManager.field_of_artifact "city" = "city"
  ∧ IndexManager.field_of_artifact "address.city" = "city".
Proof.
  split; [reflexivity|].
  apply (index_file_field_is_last_component "address" "city"). reflexivity.
Defined.




(** ** Dict assignments *)

Section dict_algebra.
Context {A : Type}.
Implicit Types (d u : list (string * A)) (k : string).

Lemma has_set k k' (v : A) d :
  Dict.has k (Dict.set k' v d) = String.eqb k k' || Dict.has k d.
Proof.
  unfold Dict.has. rewrite get_set.
  destruct (String.eqb k k'); reflexivity.
Qed.

Lemma has_update k d u :
  Dict.has k d = true → Dict.has k (Dict.update d u) = true.
Proof.
  unfold Dict.update. revert d.
  induction u as [|[k' v] u IH]; intros d Hd; simpl; [exact Hd|].
  apply IH. rewrite has_set, Hd. apply orb_true_r.
Qed.

Lemma set_set_eq k (v w : A) d :
  Dict.set k v (Dict.set k w d) = Dict.set k v d.
Proof.
  induction d as [|[k0 v0] r IH]; simpl.
  - rewrite String.eqb_refl. reflexivity.
  - destruct (String.eqb k k0) eqn:Hk; simpl.
    + rewrite String.eqb_refl. reflexivity.
    + rewrite Hk, IH. reflexivity.
Qed.

Lemma set_id k (v : A) d : Dict.get k d = Some v → Dict.set k v d = d.
Proof.
  induction d as [|[k0 v0] r IH]; simpl; [discriminate|].
  destruct (String.eqb_spec k k0) as [->|Hne].
  - intros [= ->]. reflexivity.
  - intros H. rewrite (IH H). reflexivity.
Qed.

Lemma set_comm k k' (v v' : A) d :
  k ≠ k' → Dict.has k d = true →
  Dict.set k' v' (Dict.set k v d) = Dict.set k v (Dict.set k' v' d).
Proof.
  intros Hne. induction d as [|[k0 v0] r IH]; [discriminate|].
  rewrite has_cons. simpl.
  destruct (String.eqb_spec k k0) as [->|Hk]; simpl.
  - intros _. destruct (String.eqb_spec k' k0) as [->|Hk']; [congruence|].
    simpl. rewrite String.eqb_refl. reflexivity.
  - intros Hr.
    destruct (String.eqb_spec k' k0) as [->|Hk']; simpl.
    + destruct (String.eqb_spec k k0); [congruence|reflexivity].
    + destruct (String.eqb_spec k k0); [congruence|].
      rewrite (IH Hr). reflexivity.
Qed.

Lemma update_absorbs_set k (w : A) d u :
  Dict.has k d = true → Dict.has k u = true →
  Dict.update (Dict.set k w d) u = Dict.update d u.
Proof.
  unfold Dict.update. revert d.
  induction u as [|[k' v] u IH]; intros d Hd Hu; [discriminate|].
  rewrite has_cons in Hu. simpl.
  destruct (String.eqb_spec k k') as [->|Hne].
  - rewrite set_set_eq. reflexivity.
  - simpl in Hu. rewrite set_comm by assumption.
    apply IH; [|exact Hu]. rewrite has_set, Hd. apply orb_true_r.
Qed.

Lemma update_idempotent d u :
  Dict.update (Dict.update d u) u = Dict.update d u.
Proof.
  revert d. induction u as [|[k v] u IH]; intros d; [reflexivity|].
  change (Dict.update d ((k, v) :: u)) with (Dict.update (Dict.set k v d) u).
  set (d1 := Dict.set k v d).
  change (Dict.update (Dict.update d1 u) ((k, v) :: u))
    with (Dict.update (Dict.set k v (Dict.update d1 u)) u).
  assert (Hd1 : Dict.has k d1 = true)
    by (subst d1; rewrite has_set, String.eqb_refl; reflexivity).
  destruct (Dict.has k u) eqn:Hu.
  - rewrite update_absorbs_set; [apply IH|apply has_update, Hd1|exact Hu].
  - rewrite set_id; [apply IH|].
    rewrite get_update_other by exact Hu.
    subst d1. apply get_set_eq.
Qed.
End dict_algebra.

(** ** Update operators on one document *)

(** X10. [$set] is idempotent on a document: applying the same [$set]
    update to its own result gives that result again. *)
Theorem set_update_is_idempotent (upd kv doc doc1 : obj) :
  Dict.get "$set" upd = Some (VDict kv) →
  Collection.apply_update upd doc = Ok doc1 →
  Collection.apply_update upd doc1 = Ok doc1.
Proof.
  intros Hset. unfold Collection.apply_update. rewrite Hset. simpl.
  intros [= <-]. rewrite update_idempotent. reflexivity.
Qed.

Lemma set_update_is_idempotent_witness :
  let upd := [("$set", VDict [("age", VNum 26); ("city", VStr "Oslo")])] in
  let doc1 := [("name", VStr "Bob"); ("age", VNum 26); ("city", VStr "Oslo")] in
  Collection.apply_update upd [("name", VStr "Bob"); ("age", VNum 25)] = Ok doc1
  ∧ Collection.apply_update upd doc1 = Ok doc1.
Proof.
  split; [reflexivity|].
  apply (set_update_is_idempotent _
           [("age", VNum 26); ("city", VStr "Oslo")]
           [("name", VStr "Bob"); ("age", VNum 25)]); reflexivity.
Defined.

(** X11. On integer operands: for a field that holds an integer [n] and
    an integer increment [m] (Python's integers are unbounded, so [+] is
    exact), [$inc] by [m] binds the field to [n + m], and [$inc] by [-m]
    on the result gives the document back. Float operands, where the
    addition rounds, are not covered. *)
Theorem inc_then_opposite_inc_restores (doc doc1 : obj) (k : string) (n m : Z) :
  Dict.get k doc = Some (VNum n) →
  Collection.apply_update [("$inc", VDict [(k, VNum m)])] doc = Ok doc1 →
  Dict.get k doc1 = Some (VNum (n + m))
  ∧ Collection.apply_update [("$inc", VDict [(k, VNum (- m))])] doc1 = Ok doc.
Proof.
  intros Hk. unfold Collection.apply_update. simpl. rewrite Hk. simpl.
  intros [= <-]. rewrite get_set_eq. split; [reflexivity|]. simpl.
  rewrite set_set_eq. f_equal.
  replace (n + m + - m) with n by lia. apply set_id. exact Hk.
Qed.

Lemma inc_then_opposite_inc_restores_witness :
  Collection.apply_update [("$inc", VDict [("age", VNum (-3))])]
    [("name", VStr "Bob"); ("age", VNum 28)]
  = Ok [("name", VStr "Bob"); ("age", VNum 25)].
Proof.
  apply (inc_then_opposite_inc_restores
           [("name", VStr "Bob"); ("age", VNum 25)]
           [("name", VStr "Bob"); ("age", VNum 28)] "age" 25 3);
    reflexivity.
Defined.

(** ** Update on a collection *)

Lemma update_one_result (q upd : obj) (now : string) (doc doc' : obj)
    (b : bool) (c c1 : collection) :
  Collection.update_one (Some q) upd now doc c = (Ok (doc', b), c1) →
  b = Collection.matches q doc ∧ (b = false → doc' = doc ∧ c1 = c).
Proof.
  unfold Collection.update_one.
  destruct (Collection.matches q doc).
  - destruct (Collection.apply_update upd doc); [|discriminate].
    destruct (Dict.get "_id" _); [|discriminate].
    intros [= <- <- <-]. split; [reflexivity|discriminate].
  - intros [= <- <- <-]. auto.
Qed.

Lemma update_loop_result (q upd : obj) (now : nat → string) (i : nat)
    (docs docs' : list obj) (n : nat) (c c' : collection) :
  Collection.update_loop (Some q) upd now i docs c = (Ok (docs', n), c') →
  n = length (List.filter (Collection.matches q) docs)
  ∧ length docs' = length docs
  ∧ ∀ k d, docs !! k = Some d → Collection.matches q d = false →
           docs' !! k = Some d.
Proof.
  revert i docs' n c c'.
  induction docs as [|doc rest IH]; intros i docs' n c c';
    cbn [Collection.update_loop].
  - intros [= <- <- <-]. split; [reflexivity|split; [reflexivity|]].
    intros k d Hk. rewrite lookup_nil in Hk. discriminate.
  - destruct (Collection.update_one (Some q) upd (now i) doc c)
      as [[[doc' b]|e] c1] eqn:H1; [|discriminate].
    destruct (Collection.update_loop (Some q) upd now (S i) rest c1)
      as [[[rest' m]|e] c2] eqn:H2; [|discriminate].
    intros [= <- <- <-].
    destruct (update_one_result _ _ _ _ _ _ _ _ H1) as [Hb Hsame].
    destruct (IH _ _ _ _ _ H2) as (Hm & Hlen & Hpos).
    split; [|split].
    + cbn [List.filter]. rewrite <- Hb.
      destruct b; simpl; rewrite Hm; reflexivity.
    + simpl. rewrite Hlen. reflexivity.
    + intros [|k] d Hk Hd; simpl in *.
      * injection Hk as ->. rewrite Hd in Hb.
        destruct (Hsame Hb) as [-> _]. reflexivity.
      * apply Hpos; assumption.
Qed.

(** X12. When [update] returns [n], [n] is the number of stored documents
    that match the query, the collection file still holds as many
    documents as before, and a document that does not match is still at
    its position, unchanged. *)
Theorem update_counts_matches_and_keeps_the_rest
    (q upd : obj) (now : nat → string) (n : nat) (c c' : collection) :
  Collection.update (Some q) upd now c = (Ok n, c') →
  n = length (List.filter (Collection.matches q) (documents c))
  ∧ length (documents c') = length (documents c)
  ∧ ∀ k d, documents c !! k = Some d → Collection.matches q d = false →
           documents c' !! k = Some d.
Proof.
  unfold Collection.update, _read_collection. cbv zeta.
  pose proof (update_loop_documents (Some q) upd now 0 (documents c) c) as Hdocs.
  destruct (Collection.update_loop (Some q) upd now 0 (documents c) c)
    as [[[docs' m]|e] c1] eqn:Hloop; [|discriminate].
  destruct (update_loop_result _ _ _ _ _ _ _ _ _ Hloop) as (Hm & Hlen & Hpos).
  simpl in Hdocs.
  destruct (0 <? m)%nat; intros [= <- <-].
  - repeat split; assumption.
  - rewrite Hdocs. repeat split; [exact Hm|]. intros k d Hk _. exact Hk.
Qed.

Lemma update_counts_matches_and_keeps_the_rest_witness :
  ∃ c', Collection.update (Some [("name", VStr "Bob")])
          [("$set", VDict [("age", VNum 26)])] (λ _, "t5") people = (Ok 1%nat, c')
        ∧ length (documents c') = 2%nat
        ∧ documents c' !! 0%nat = documents people !! 0%nat.
Proof.
  eexists. split; [reflexivity|].
  match goal with
  | |- length (documents ?c') = _ ∧ _ =>
      destruct (update_counts_matches_and_keeps_the_rest
                  [("name", VStr "Bob")] [("$set", VDict [("age", VNum 26)])]
                  (λ _, "t5") 1 people c' eq_refl) as (_ & Hlen & Hpos)
  end.
  split; [exact Hlen|].
  apply (Hpos 0%nat); reflexivity.
Defined.

Lemma update_loop_no_match (q upd : obj) (now : nat → string) (i : nat)
    (docs : list obj) (c : collection) :
  (∀ d, In d docs → Collection.matches q d = false) →
  Collection.update_loop (Some q) upd now i docs c = (Ok (docs, 0%nat), c).
Proof.
  revert i. induction docs as [|doc rest IH]; intros i H; [reflexivity|].
  simpl. unfold Collection.update_one.
  rewrite (H doc (or_introl eq_refl)).
  rewrite IH by (intros d Hd; apply H; right; exact Hd). reflexivity.
Qed.

(** X13. An update whose query matches no stored document returns 0 and
    changes nothing, neither the collection file nor an index, whatever
    the update document is (a malformed [$set] included). *)
Theorem update_without_match_is_noop
    (q upd : obj) (now : nat → string) (c : collection) :
  (∀ d, In d (documents c) → Collection.matches q d = false) →
  Collection.update (Some q) upd now c = (Ok 0%nat, c).
Proof.
  intros H. unfold Collection.update, _read_collection. cbv zeta.
  rewrite update_loop_no_match by exact H. reflexivity.
Qed.

Lemma update_without_match_is_noop_witness :
  Collection.update (Some [("name", VStr "Carol")]) [("$set", VNum 3)]
    (λ _, "t5") people
  = (Ok 0%nat, people).
Proof.
  apply (update_without_match_is_noop [("name", VStr "Carol")]
           [("$set", VNum 3)] (λ _, "t5") people).
  intros d [<-|[<-|[]]]; reflexivity.
Defined.

(** X14. An update that raises never writes the collection file: the
    documents on disk are those from before the call, whichever document
    of the batch the exception came from. *)
Theorem failed_update_keeps_collection_file
    (q : option obj) (upd : obj) (now : nat → string) (e : exn)
    (c c' : collection) :
  Collection.update q upd now c = (Raise e, c') →
  documents c' = documents c.
Proof.
  unfold Collection.update, _read_collection. cbv zeta.
  pose proof (update_loop_documents q upd now 0 (documents c) c) as Hdocs.
  destruct (Collection.update_loop q upd now 0 (documents c) c)
    as [[[docs' m]|e'] c1]; simpl in Hdocs.
  - destruct (0 <? m)%nat; discriminate.
  - intros [= _ <-]. exact Hdocs.
Qed.

Lemma failed_update_keeps_collection_file_witness :
  ∃ c', Collection.update (Some [("age", VNum 25)])
          [("$inc", VDict [("age", VStr "one")])] (λ _, "t5") people
        = (Raise TypeError, c')
        ∧ documents c' = documents people.
Proof.
  eexists. split; [reflexivity|].
  apply (failed_update_keeps_collection_file (Some [("age", VNum 25)])
           [("$inc", VDict [("age", VStr "one")])] (λ _, "t5") TypeError people).
  reflexivity.
Defined.

(** ** Delete on a collection *)










(** ** Reserved fields *)

Lemma has_of_get (k : string) (d : obj) (v : value) :
  Dict.get k d = Some v → Dict.has k d = true.
Proof. intros H. unfold Dict.has. rewrite H. reflexivity. Qed.

Lemma Document_init_keeps_field (d : obj) (doc_id : option string)
    (uuid now1 now2 k : string) (v : value) :
  k ≠ "_updated_at" → Dict.get k d = Some v →
  Dict.get k (data (Document_init d doc_id uuid now1 now2)) = Some v.
Proof.
  intros Hk Hv. unfold Document_init; cbn [data].
  rewrite get_set_ne by exact Hk.
  assert (H1 : ∀ x, Dict.get k
                      (if Dict.has "_id" d then d else Dict.set "_id" x d)
                    = Some v).
  { intros x. unfold Dict.has.
    destruct (Dict.get "_id" d) eqn:Hid; [exact Hv|].
    rewrite get_set_ne; [exact Hv|]. intros ->. congruence. }
  match goal with
  | |- Dict.get k (if Dict.has "_created_at" ?d1 then _ else _) = _ =>
      assert (Hd1 : Dict.get k d1 = Some v) by apply H1;
      destruct (Dict.has "_created_at" d1) eqn:Hc
  end; [exact Hd1|].
  rewrite get_set_ne; [exact Hd1|]. intros ->.
  rewrite (has_of_get _ _ _ Hd1) in Hc. discriminate.
Qed.

Lemma Document_init_has_reserved (d : obj) (doc_id : option string)
    (uuid now1 now2 : string) :
  has_reserved (data (Document_init d doc_id uuid now1 now2)) = true.
Proof.
  unfold has_reserved, Document_init; cbn [data].
  rewrite !has_set. cbn [String.eqb Ascii.eqb Bool.eqb orb andb].
  rewrite andb_true_r.
  assert (Hid : ∀ x, Dict.has "_id"
                       (if Dict.has "_id" d then d else Dict.set "_id" x d)
                     = true).
  { intros x. destruct (Dict.has "_id" d) eqn:H; [exact H|].
    rewrite has_set. reflexivity. }
  match goal with
  | |- Dict.has "_id" (if Dict.has "_created_at" ?d1 then _ else _) && _ = _ =>
      assert (Hd1 : Dict.has "_id" d1 = true) by apply Hid;
      destruct (Dict.has "_created_at" d1) eqn:Hc
  end.
  - rewrite Hd1, Hc. reflexivity.
  - rewrite !has_set, Hd1. reflexivity.
Qed.

(** X17. [Document.__init__] populates the three reserved fields and
    touches nothing else of the caller's mapping: every field the caller
    supplies keeps its value, a supplied [_id] and [_created_at]
    included, except [_updated_at], which is always the current time. *)
Theorem Document_init_fields (d : obj) (doc_id : option string)
    (uuid now1 now2 : string) :
  let doc := data (Document_init d doc_id uuid now1 now2) in
  has_reserved doc = true
  ∧ Dict.get "_updated_at" doc = Some (VStr now2)
  ∧ ∀ k v, k ≠ "_updated_at" → Dict.get k d = Some v →
           Dict.get k doc = Some v.
Proof.
  split; [apply Document_init_has_reserved|split].
  - unfold Document_init; cbn [data]. apply get_set_eq.
  - intros k v. apply Document_init_keeps_field.
Qed.

Lemma has_apply_inc (k : string) (kv doc doc' : obj) :
  Dict.has k doc = true → Collection.apply_inc kv doc = Ok doc' →
  Dict.has k doc' = true.
Proof.
  revert doc. induction kv as [|[k' v] kv IH]; intros doc Hk; simpl.
  - intros [= <-]. exact Hk.
  - assert (Hstep : ∀ w, Collection.apply_inc kv (Dict.set k' w doc) = Ok doc' →
                         Dict.has k doc' = true).
    { intros w. apply IH. rewrite has_set, Hk. apply orb_true_r. }
    destruct (Dict.get k' doc) as [x|]; [|apply Hstep].
    destruct (Collection.as_int x); [|apply Hstep].
    destruct (Collection.as_int v); [apply Hstep|discriminate].
Qed.

Lemma has_apply_update (k : string) (upd doc doc' : obj) :
  Dict.has k doc = true → Collection.apply_update upd doc = Ok doc' →
  Dict.has k doc' = true.
Proof.
  intros Hk. unfold Collection.apply_update.
  destruct (Dict.get "$set" upd) as [s|].
  - destruct s; simpl; try discriminate.
    intros [= <-]. apply has_update. exact Hk.
  - destruct (Dict.get "$inc" upd) as [s|].
    + destruct s; simpl; try discriminate. apply has_apply_inc. exact Hk.
    + destruct (Dict.get "_id" doc); [|discriminate].
      intros [= <-]. rewrite has_set, has_update by exact Hk.
      apply orb_true_r.
Qed.

Lemma has_reserved_apply_update (upd doc doc' : obj) :
  has_reserved doc = true → Collection.apply_update upd doc = Ok doc' →
  has_reserved doc' = true.
Proof.
  unfold has_reserved. intros H Hup.
  apply andb_true_iff in H as [H H3]. apply andb_true_iff in H as [H1 H2].
  rewrite (has_apply_update _ _ _ _ H1 Hup), (has_apply_update _ _ _ _ H2 Hup),
    (has_apply_update _ _ _ _ H3 Hup). reflexivity.
Qed.

Lemma has_reserved_set (k : string) (v : value) (doc : obj) :
  has_reserved doc = true → has_reserved (Dict.set k v doc) = true.
Proof.
  unfold has_reserved. intros H.
  apply andb_true_iff in H as [H H3]. apply andb_true_iff in H as [H1 H2].
  rewrite !has_set, H1, H2, H3, !orb_true_r. reflexivity.
Qed.

Lemma update_loop_has_reserved (q : option obj) (upd : obj)
    (now : nat → string) (i : nat) (docs docs' : list obj) (n : nat)
    (c c' : collection) :
  forallb has_reserved docs = true →
  Collection.update_loop q upd now i docs c = (Ok (docs', n), c') →
  forallb has_reserved docs' = true.
Proof.
  revert i docs' n c c'.
  induction docs as [|doc rest IH]; intros i docs' n c c' H;
    cbn [Collection.update_loop].
  - intros [= <- <- <-]. reflexivity.
  - cbn [forallb] in H. apply andb_true_iff in H as [Hdoc Hrest].
    destruct (Collection.update_one q upd (now i) doc c)
      as [[[doc' b]|e] c1] eqn:H1; [|discriminate].
    destruct (Collection.update_loop q upd now (S i) rest c1)
      as [[[rest' m]|e] c2] eqn:H2; [|discriminate].
    intros [= <- <- <-]. cbn [forallb].
    rewrite (IH _ _ _ _ _ Hrest H2), andb_true_r.
    revert H1. unfold Collection.update_one.
    destruct q as [q|]; [|discriminate].
    destruct (Collection.matches q doc); [|intros [= <- <- <-]; exact Hdoc].
    destruct (Collection.apply_update upd doc) as [doc1|] eqn:Hup; [|discriminate].
    destruct (Dict.get "_id" _); [|discriminate].
    intros [= <- <- <-]. apply has_reserved_set.
    eapply has_reserved_apply_update; eauto.
Qed.

(** X18. Every stored document keeps its three reserved fields: if all
    documents of the collection file have [_id], [_created_at] and
    [_updated_at], so do all documents after [insert], after [update]
    (whatever the update document, also when it raises) and after
    [delete]. *)
Theorem operations_keep_reserved_fields (c : collection) :
  forallb has_reserved (documents c) = true →
  (∀ d uuid now1 now2,
     forallb has_reserved
       (documents (snd (Collection.insert d uuid now1 now2 c))) = true)
  ∧ (∀ q upd now,
       forallb has_reserved
         (documents (snd (Collection.update q upd now c))) = true)
  ∧ (∀ q,
       forallb has_reserved (documents (snd (Collection.delete q c))) = true).
Proof.
  intros H. split; [|split].
  - intros d uuid now1 now2. rewrite insert_documents, forallb_app, H.
    cbn [forallb]. rewrite Document_init_has_reserved. reflexivity.
  - intros q upd now. unfold Collection.update, _read_collection. cbv zeta.
    pose proof (update_loop_documents q upd now 0 (documents c) c) as Hdocs.
    destruct (Collection.update_loop q upd now 0 (documents c) c)
      as [[[docs' n]|e] c1] eqn:Hloop; simpl in Hdocs.
    + destruct (0 <? n)%nat; simpl.
      * eapply update_loop_has_reserved; eauto.
      * rewrite Hdocs. exact H.
    + simpl. rewrite Hdocs. exact H.
  - intros q. destruct (delete_documents q c) as [-> | ->]; [exact H|].
    apply forallb_list_filter. exact H.
Qed.

Lemma operations_keep_reserved_fields_witness :
  forallb has_reserved (documents people) = true
  ∧ forallb has_reserved
      (documents
         (snd (Collection.update (Some [("name", VStr "Bob")])
                 [("age", VNum 26)] (λ _, "t5") people))) = true.
Proof.
  split; [reflexivity|].
  apply (operations_keep_reserved_fields people). reflexivity.
Defined.

(** ** Names of databases and collections *)

Lemma word_tail_spec (s : string) :
  Utils.word_tail s = true
  ↔ ∃ w, Utils.all_word w = true ∧ (s = w ∨ s = w +:+ Utils.newline).
Proof.
  induction s as [|ch r IH]; simpl.
  - split; [|reflexivity]. intros _. exists EmptyString. auto.
  - destruct (Utils.is_word_char ch) eqn:Hch.
    + rewrite IH. split.
      * intros (w & Hw & Hs). exists (String ch w). simpl. rewrite Hch, Hw.
        split; [reflexivity|]. destruct Hs as [-> | ->]; auto.
      * intros (w & Hw & Hs). destruct w as [|c w]; simpl in *.
        -- destruct Hs as [Hs|Hs]; [discriminate|].
           injection Hs as -> ->. discriminate.
        -- apply andb_true_iff in Hw as [_ Hw]. exists w. split; [exact Hw|].
           destruct Hs as [Hs|Hs]; injection Hs as _ ->; auto.
    + split.
      * intros H. apply andb_true_iff in H as [Hn Hr].
        destruct r; [|discriminate]. exists EmptyString.
        split; [reflexivity|]. right. unfold Utils.newline. simpl.
        apply N.eqb_eq in Hn. f_equal.
        rewrite <- (ascii_N_embedding ch), Hn. reflexivity.
      * intros (w & Hw & Hs). destruct w as [|c w]; simpl in *.
        -- destruct Hs as [Hs|Hs]; [discriminate|].
           injection Hs as -> ->. reflexivity.
        -- apply andb_true_iff in Hw as [Hc _].
           destruct Hs as [Hs|Hs]; injection Hs as -> _; congruence.
Qed.

(** X19. [validate_db_name] and [validate_collection_name] accept exactly
    the non-empty strings of letters, digits and underscores, and those
    strings followed by one newline: [$] matches before a final newline,
    so a name that ends in a newline passes. *)
Theorem valid_names_are_words_or_word_newline (name : string) :
  (Utils.validate_db_name name = true
   ↔ ∃ w, w ≠ EmptyString ∧ Utils.all_word w = true
          ∧ (name = w ∨ name = w +:+ Utils.newline))
  ∧ Utils.validate_collection_name name = Utils.validate_db_name name.
Proof.
  split; [|reflexivity].
  destruct name as [|ch r]; simpl.
  - split; [discriminate|]. intros (w & Hne & _ & [Hs|Hs]).
    + congruence.
    + destruct w; [congruence|discriminate].
  - rewrite andb_true_iff, word_tail_spec. split.
    + intros (Hch & w & Hw & Hs). exists (String ch w). simpl.
      rewrite Hch, Hw. repeat split; [discriminate|].
      destruct Hs as [-> | ->]; auto.
    + intros (w & Hne & Hw & Hs). destruct w as [|c w]; [congruence|].
      simpl in *. apply andb_true_iff in Hw as [Hc Hw].
      destruct Hs as [Hs|Hs]; injection Hs as -> ->; eauto.
Qed.

(** ** The index key of a mapping *)

Lemma string_compare_as_OT (a b : string) :
  String.compare a b = OrdersEx.String_as_OT.compare a b.
Proof.
  revert b. induction a as [|x a IH]; intros [|y b]; reflexivity.
Qed.

Lemma string_leb_spec (a b : string) :
  String.leb a b = true ↔ a = b ∨ OrdersEx.String_as_OT.lt a b.
Proof.
  unfold String.leb. rewrite string_compare_as_OT.
  pose proof (@StrictOrder_Irreflexive _ _ OrdersEx.String_as_OT.lt_strorder)
    as Hirr.
  pose proof (@StrictOrder_Transitive _ _ OrdersEx.String_as_OT.lt_strorder)
    as Htr.
  destruct (OrdersEx.String_as_OT.compare_spec a b) as [E|L|G].
  - split; auto.
  - split; auto.
  - split; [discriminate|]. intros [->|L].
    + exfalso. exact (Hirr b G).
    + exfalso. exact (Hirr a (Htr a b a L G)).
Qed.

Lemma string_leb_trans (a b c : string) :
  String.leb a b = true → String.leb b c = true → String.leb a c = true.
Proof.
  rewrite !string_leb_spec.
  pose proof (@StrictOrder_Transitive _ _ OrdersEx.String_as_OT.lt_strorder)
    as Htr.
  intros [->|L1] [->|L2]; auto. right. exact (Htr a b c L1 L2).
Qed.

Lemma insert_sorted_comm {A : Type} (x y : string * A) (l : list (string * A)) :
  fst x ≠ fst y →
  Json.insert_sorted x (Json.insert_sorted y l)
  = Json.insert_sorted y (Json.insert_sorted x l).
Proof.
  intros Hne.
  assert (Hxy : String.leb (fst x) (fst y) = negb (String.leb (fst y) (fst x))).
  { destruct (String.leb (fst x) (fst y)) eqn:H1,
             (String.leb (fst y) (fst x)) eqn:H2; try reflexivity.
    - exfalso. apply Hne. apply String.leb_antisym; assumption.
    - destruct (String.leb_total (fst x) (fst y)); congruence. }
  induction l as [|z r IH]; simpl.
  - rewrite Hxy. destruct (String.leb (fst y) (fst x)); reflexivity.
  - destruct (String.leb (fst y) (fst z)) eqn:Hyz,
             (String.leb (fst x) (fst z)) eqn:Hxz; simpl.
    + rewrite Hxy, Hxz, Hyz.
      destruct (String.leb (fst y) (fst x)); reflexivity.
    + rewrite Hxz, Hyz.
      destruct (String.leb (fst x) (fst y)) eqn:H; [|reflexivity].
      rewrite (string_leb_trans _ _ _ H Hyz) in Hxz. discriminate.
    + rewrite Hxz, Hyz.
      destruct (String.leb (fst y) (fst x)) eqn:H; [|reflexivity].
      rewrite (string_leb_trans _ _ _ H Hxz) in Hyz. discriminate.
    + rewrite Hxz, Hyz, IH. reflexivity.
Qed.

Lemma sort_items_permutation {A : Type} (l1 l2 : list (string * A)) :
  Permutation l1 l2 → NoDup (map fst l1) →
  Json.sort_items l1 = Json.sort_items l2.
Proof.
  induction 1 as [|x l l' Hp IH|x y l|l l' l'' Hp1 IH1 Hp2 IH2]; intros Hnd.
  - reflexivity.
  - simpl. rewrite IH; [reflexivity|].
    simpl in Hnd. apply NoDup_cons in Hnd as [_ Hnd]. exact Hnd.
  - simpl. apply insert_sorted_comm.
    simpl in Hnd. apply NoDup_cons in Hnd as [Hy _].
    intros Heq. apply Hy. rewrite Heq. apply list_elem_of_here.
  - rewrite IH1 by exact Hnd. apply IH2.
    assert (Hm : map fst l ≡ₚ map fst l') by (apply Permutation_map; exact Hp1).
    rewrite <- Hm. exact Hnd.
Qed.

(** X20. The index key of a mapping does not depend on the order of its
    keys: two mappings with the same items in different orders (keys
    pairwise different, as in a dict) have the same index key, so they
    land in the same bucket. *)
Theorem mapping_key_ignores_key_order (d1 d2 : list (string * value)) :
  NoDup (map fst d1) → Permutation d1 d2 →
  Index._get_indexable_value (VDict d1) = Index._get_indexable_value (VDict d2).
Proof.
  intros Hnd Hp. cbn [Index._get_indexable_value Json.dumps].
  rewrite (sort_items_permutation
             (map (λ kv, (fst kv, Json.dumps (snd kv))) d1)
             (map (λ kv, (fst kv, Json.dumps (snd kv))) d2)).
  - reflexivity.
  - apply Permutation_map. exact Hp.
  - rewrite map_map. simpl. exact Hnd.
Qed.

Lemma mapping_key_ignores_key_order_witness :
  Index._get_indexable_value (VDict [("b", VNum 2); ("a", VStr "x")])
  = Index._get_indexable_value (VDict [("a", VStr "x"); ("b", VNum 2)]).
Proof.
  apply mapping_key_ignores_key_order.
  - apply NoDup_cons_2; [|apply NoDup_singleton].
    intros Hin. apply list_elem_of_singleton in Hin. discriminate.
  - apply perm_swap.
Defined.

(** ** Creating and dropping an index *)



(** ** One index: update *)

Lemma drop_id_lookup (i : value) (k : string) (bucket : list value)
    (index : index_map) (key : string) :
  default [] (Index.drop_id i k bucket index !! key)
  = if String.eqb k key
    then (if py_in i bucket then py_remove i bucket else bucket)
    else default [] (index !! key).
Proof.
  unfold Index.drop_id.
  destruct (String.eqb_spec k key) as [->|Hne].
  - destruct (if py_in i bucket then py_remove i bucket else bucket).
    + rewrite lookup_delete_eq. reflexivity.
    + rewrite lookup_insert_eq. reflexivity.
  - destruct (if py_in i bucket then py_remove i bucket else bucket).
    + rewrite lookup_delete_ne by exact Hne. reflexivity.
    + rewrite lookup_insert_ne by exact Hne. reflexivity.
Qed.

Lemma put_id_lookup_ne (i : value) (k key : string) (index : index_map) :
  k ≠ key →
  default [] (fst (Index.put_id i k index) !! key) = default [] (index !! key).
Proof.
  intros Hne. unfold Index.put_id.
  assert (He : Index.ensure_bucket k index !! key = index !! key).
  { unfold Index.ensure_bucket. destruct (index !! k); [reflexivity|].
    apply lookup_insert_ne. exact Hne. }
  destruct (py_in i _); cbn [fst].
  - rewrite He. reflexivity.
  - unfold Index.append_id. rewrite lookup_insert_ne by exact Hne.
    rewrite He. reflexivity.
Qed.

Lemma put_id_lookup_eq (i : string) (k : string) (index : index_map) :
  py_in (VStr i) (default [] (fst (Index.put_id (VStr i) k index) !! k)) = true.
Proof.
  unfold Index.put_id.
  destruct (py_in (VStr i) (default [] (Index.ensure_bucket k index !! k)))
    eqn:Hin; cbn [fst].
  - exact Hin.
  - unfold Index.append_id. rewrite lookup_insert_eq.
    cbn [default from_option Datatypes.id]. apply py_in_app_str.
Qed.

(** X22. [Index.update] moves an id from the bucket of the old value to
    the bucket of the new one and touches no other bucket: for two values
    that are not null, with non-empty and different keys, the id is
    afterwards found under the new value, the first occurrence of the id
    is gone from the bucket of the old value, and the lookup of any value
    with another key is as before. *)
Theorem index_update_moves_id
    (i : string) (old new : value) (index : index_map) :
  old ≠ VNull → new ≠ VNull →
  str_truthy (Index._get_indexable_value old) = true →
  str_truthy (Index._get_indexable_value new) = true →
  Index._get_indexable_value old ≠ Index._get_indexable_value new →
  let index' := Index.update (VStr i) old new index in
  py_in (VStr i) (Index.find_doc_ids index' new) = true
  ∧ Index.find_doc_ids index' old
    = (if py_in (VStr i) (Index.find_doc_ids index old)
       then py_remove (VStr i) (Index.find_doc_ids index old)
       else Index.find_doc_ids index old)
  ∧ ∀ v, Index._get_indexable_value v ≠ Index._get_indexable_value old →
         Index._get_indexable_value v ≠ Index._get_indexable_value new →
         Index.find_doc_ids index' v = Index.find_doc_ids index v.
Proof.
  intros Hold Hnew Hko Hkn Hne index'.
  set (ko := Index._get_indexable_value old) in *.
  set (kn := Index._get_indexable_value new) in *.
  assert (Hok : Index.key_of old = Some ko)
    by (destruct old; [congruence|..]; reflexivity).
  assert (Hnk : Index.key_of new = Some kn)
    by (destruct new; [congruence|..]; reflexivity).
  set (index1 := match index !! ko with
                 | Some bucket => Index.drop_id (VStr i) ko bucket index
                 | None => index
                 end).
  assert (Hupd : index' = fst (Index.put_id (VStr i) kn index1)).
  { subst index' index1. unfold Index.update. rewrite Hok, Hnk, Hko, Hkn.
    reflexivity. }
  assert (H1 : ∀ key,
            default [] (index1 !! key)
            = if String.eqb ko key
              then (if py_in (VStr i) (default [] (index !! ko))
                    then py_remove (VStr i) (default [] (index !! ko))
                    else default [] (index !! ko))
              else default [] (index !! key)).
  { intros key. subst index1.
    destruct (index !! ko) as [bucket|] eqn:Hb.
    - rewrite drop_id_lookup. reflexivity.
    - destruct (String.eqb_spec ko key) as [<-|]; [|reflexivity].
      rewrite Hb. reflexivity. }
  unfold Index.find_doc_ids. fold ko kn. rewrite Hupd. split; [|split].
  - apply put_id_lookup_eq.
  - rewrite put_id_lookup_ne by congruence.
    rewrite H1, String.eqb_refl. reflexivity.
  - intros v Hv1 Hv2. rewrite put_id_lookup_ne by congruence.
    rewrite H1. destruct (String.eqb_spec ko (Index._get_indexable_value v));
      [congruence|reflexivity].
Qed.

Lemma index_update_moves_id_witness :
  let index := fst (Index.add (VStr "u1") (VNum 25) ∅) in
  let index' := Index.update (VStr "u1") (VNum 25) (VNum 26) index in
  Index.find_doc_ids index (VNum 25) = [VStr "u1"]
  ∧ py_in (VStr "u1") (Index.find_doc_ids index' (VNum 26)) = true
  ∧ Index.find_doc_ids index' (VNum 25) = [].
Proof.
  intros index index'. split; [reflexivity|].
  destruct (index_update_moves_id "u1" (VNum 25) (VNum 26) index)
    as (Hnew & Hold & _); try discriminate; try reflexivity.
  split; [exact Hnew|exact Hold].
Defined.

(** ** The collections of a database directory *)

Lemma ends_with_unfold (suffix s : string) :
  Database.ends_with suffix s
  = String.eqb s suffix
    || match s with
       | EmptyString => false
       | String _ r => Database.ends_with suffix r
       end.
Proof. destruct s; reflexivity. Qed.

Lemma ends_with_app (suffix p : string) :
  Database.ends_with suffix (p +:+ suffix) = true.
Proof.
  induction p as [|ch p IH].
  - change (EmptyString +:+ suffix) with suffix.
    rewrite ends_with_unfold, String.eqb_refl. reflexivity.
  - change (String ch p +:+ suffix) with (String ch (p +:+ suffix)).
    rewrite ends_with_unfold, IH. apply orb_true_r.
Qed.

Lemma last_char_app (p : string) (ch : ascii) (r : string) :
  Database.last_char (p +:+ String ch r) = Database.last_char (String ch r).
Proof.
  induction p as [|c p IH].
  - reflexivity.
  - change (String c p +:+ String ch r) with (String c (p +:+ String ch r)).
    transitivity (Database.last_char (p +:+ String ch r)); [|exact IH].
    destruct p; reflexivity.
Qed.

Lemma ends_with_last_char (ch : ascii) (r s : string) :
  Database.ends_with (String ch r) s = true ->
  Database.last_char s = Database.last_char (String ch r).
Proof.
  induction s as [|c s IH]; intros H.
  - discriminate H.
  - rewrite ends_with_unfold in H. apply orb_true_iff in H as [H|H].
    + apply String.eqb_eq in H. rewrite H. reflexivity.
    + specialize (IH H). rewrite <- IH.
      destruct s; [discriminate H | reflexivity].
Qed.

Lemma index_file_is_no_collection_file (p : string) :
  Database.ends_with ".digitool" (p +:+ ".idx") = false.
Proof.
  destruct (Database.ends_with ".digitool" (p +:+ ".idx")) eqn:E; [|reflexivity].
  apply ends_with_last_char in E. rewrite last_char_app in E. discriminate E.
Qed.

Lemma string_length_app (p q : string) :
  String.length (p +:+ q) = (String.length p + String.length q)%nat.
Proof.
  induction p as [|c p IH]; [reflexivity|].
  change (String c p +:+ q) with (String c (p +:+ q)).
  cbn [String.length]. rewrite IH. reflexivity.
Qed.

Lemma substring_prefix (p q : string) :
  String.substring 0 (String.length p) (p +:+ q) = p.
Proof.
  induction p as [|c p IH].
  - destruct q; reflexivity.
  - change (String c p +:+ q) with (String c (p +:+ q)).
    cbn [String.length String.substring]. f_equal. exact IH.
Qed.

Lemma strip_extension_collection_file (name : string) :
  Database.strip_extension (Database.collection_file name) = name.
Proof.
  unfold Database.strip_extension, Database.collection_file.
  rewrite string_length_app.
  replace (String.length name + String.length ".digitool" - 9)%nat
    with (String.length name) by (cbn; lia).
  apply substring_prefix.
Qed.

(** X23. In a database directory that holds the files of collections and
    the files of their indices, [Database.list_collections] returns the
    names of the collections, in the order of the directory listing, each
    without its [.digitool] extension, and no index file is reported as a
    collection, whatever the names of the collections and of the indexed
    fields. *)
Theorem list_collections_lists_collection_files (entries : list Database.entry) :
  Database.list_collections (map Database.file_name entries)
  = Database.collections_of entries.
Proof.
  unfold Database.list_collections, Database.collections_of.
  induction entries as [|e entries IH]; [reflexivity|].
  cbn [map omap mbind option_bind]. destruct e as [name|name field].
  - cbn [Database.file_name List.filter]. unfold Database.collection_file at 1.
    rewrite ends_with_app. cbn [map]. rewrite strip_extension_collection_file.
    simpl. f_equal. exact IH.
  - cbn [Database.file_name List.filter]. unfold Database.index_file at 1.
    rewrite <- !string_app_assoc, index_file_is_no_collection_file. exact IH.
Qed.
